(** * Domain discovery tool: the crawler session model

    A shallow embedding of [models/crawlermodel.py] (class [CrawlerModel])
    and of [elastic/get_documents.py], with the properties of the tag
    reconciler, the page summary, the projection step and the session
    filter.

    The second half of the file covers the other functions of the two
    files, [get_most_recent_documents], [get_all_ids], [getPages] and
    [getTermSnippets], and [elastic/load_config.py].

    Python dictionaries are finite maps ([gmap]), Python exceptions are the
    [Raise] results of a small error monad, and the collaborators whose
    sources are not part of the modelled files (the search backend and the
    ranking and reduction routines) are section variables. *)

From Stdlib Require Import ZArith Ascii.
From stdpp Require Import gmap strings list fin_maps.

Local Open Scope string_scope.
Local Open Scope list_scope.

(** ** Python values and exceptions *)

Module Py.

(** The exceptions the modelled code can raise. *)
Inductive exn : Type :=
  | UnboundLocalError
  | KeyError
  | IndexError
  | ValueError
  | TypeError.

(** A computation either returns or raises. *)
Inductive result (A : Type) : Type :=
  | Ok (a : A)
  | Raise (e : exn).

Arguments Ok {A} a.
Arguments Raise {A} e.

Definition bind {A B : Type} (m : result A) (k : A -> result B) : result B :=
  match m with
  | Ok a => k a
  | Raise e => Raise e
  end.

Definition raises {A : Type} (m : result A) : bool :=
  match m with
  | Ok _ => false
  | Raise _ => true
  end.

(** [sep.join(l)] *)
Definition join (sep : string) (l : list string) : string :=
  String.concat sep l.

(** [s.split(c)] for a one-character separator: one piece more than there
    are separators, so the empty string splits into one empty piece. *)
Fixpoint split (c : ascii) (s : string) : list string :=
  match s with
  | EmptyString => [EmptyString]
  | String a s' =>
      if Ascii.eqb a c then EmptyString :: split c s'
      else match split c s' with
           | [] => [String a EmptyString]
           | piece :: pieces => String a piece :: pieces
           end
  end.

(** [sub in s] on two strings: the substring test. *)
Fixpoint str_in (sub s : string) : bool :=
  String.prefix sub s
  || match s with
     | EmptyString => false
     | String _ s' => str_in sub s'
     end.

(** [l.remove(x)]: drops the first occurrence, [ValueError] when there is
    none. *)
Fixpoint list_remove (x : string) (l : list string) : result (list string) :=
  match l with
  | [] => Raise ValueError
  | y :: l' =>
      if String.eqb y x then Ok l'
      else bind (list_remove x l') (fun r => Ok (y :: r))
  end.

(** [d[k]] on a dictionary: [KeyError] when the key is missing. *)
Definition getitem {V : Type} (d : gmap string V) (k : string) : result V :=
  match d !! k with
  | Some v => Ok v
  | None => Raise KeyError
  end.

(** [l[i]] on a list: [IndexError] when out of range. *)
Definition index {V : Type} (l : list V) (i : nat) : result V :=
  match l !! i with
  | Some v => Ok v
  | None => Raise IndexError
  end.

(** [{ key: f(key) for key in keys }] *)
Definition dict_comp {V : Type} (f : string -> V) (keys : list string)
  : gmap string V :=
  foldl (fun d key => <[key := f key]> d) ∅ keys.

(** A field value as the search backend hands it over: a string, or a list
    of strings.  [x in v] is the substring test on the first and
    membership on the second. *)
Inductive value : Type :=
  | Str (s : string)
  | List (l : list string).

Definition contains (x : string) (v : value) : bool :=
  match v with
  | Str s => str_in x s
  | List l => bool_decide (x ∈ l)
  end.

(** The character [c] occurs in [s]. *)
Fixpoint has_char (c : ascii) (s : string) : bool :=
  match s with
  | EmptyString => false
  | String a s' => Ascii.eqb a c || has_char c s'
  end.

End Py.

Import Py.

Notation "'let!' x ':=' m 'in' k" := (Py.bind m (fun x => k))
  (at level 10, x name, m at level 100, k at level 200).

Definition semicolon : ascii := ";"%char.

(** ** elastic/get_documents.py *)

Module Elastic.

(** One entry of [res['hits']['hits']]; [hit_fields] is [hit.get('fields')]. *)
Record hit : Type := Hit { hit_fields : option (gmap string (list string)) }.

(** A connection to the search backend.  [search es_index es_doc_type
    term_field term fields] is [res['hits']['hits']] for the term query
      [{"query": {"term": {term_field: term}}, "fields": fields}]. *)
Record ElasticSearch : Type := Connection {
  search : option string -> string -> string -> string -> list string -> list hit
}.

Section GetDocuments.

(** [ElasticSearch('http://localhost:9200/')], used when no connection is
    passed. *)
Variable localhost : ElasticSearch.

(** The inner loop over [fields], filling [record]. *)
Fixpoint fill_record (fields : list string) (hits : gmap string (list string))
    (record : gmap string string) : result (gmap string string) :=
  match fields with
  | [] => Ok record
  | field :: fields' =>
      match hits !! field with
      | None => fill_record fields' hits record
      | Some vs =>
          let! v := index vs 0 in
          fill_record fields' hits (<[field := v]> record)
      end
  end.

(** The loop over [terms], filling [results]. *)
Fixpoint collect (es : ElasticSearch) (term_field : string)
    (fields : list string) (es_index : option string) (es_doc_type : string)
    (terms : list string) (results : gmap string (gmap string string))
  : result (gmap string (gmap string string)) :=
  match terms with
  | [] => Ok results
  | term :: terms' =>
      let continue := collect es term_field fields es_index es_doc_type terms' in
      match search es es_index es_doc_type term_field term fields with
      | [] => continue results
      | hits :: _ =>
          match hit_fields hits with
          | None => continue results
          | Some hits =>
              let! record := fill_record fields hits ∅ in
              continue (<[term := record]> results)
          end
      end
  end.

(** [get_documents]: [results] is bound only when [terms] is not empty, so
    the final [return results] raises otherwise. *)
Definition get_documents (terms : list string) (term_field : string)
    (fields : list string) (es_index : option string) (es_doc_type : string)
    (es : option ElasticSearch) : result (gmap string (gmap string string)) :=
  let es := match es with None => localhost | Some es => es end in
  if Nat.ltb 0 (length terms) then
    collect es term_field fields es_index es_doc_type terms ∅
  else Raise UnboundLocalError.

End GetDocuments.

End Elastic.

Import Elastic.

(** ** The rest of elastic/get_documents.py *)

(** The [query] part of a search request. *)
Inductive query_clause : Type :=
  | match_all
  | query_string (fields : list string) (query : string).

(** A search request: the [size], [sort], [query] and [fields] entries of
    the dictionary, an entry that is not set being [None] (or the empty
    list for [sort]). *)
Record request : Type := Request {
  request_size : option Z;
  request_sort : list (string * string);
  request_query : query_clause;
  request_fields : option (list string)
}.

(** [results.append(hit['fields'])] over the hits: [KeyError] at the
    first hit without the key. *)
Fixpoint fields_of_hits {F : Type} (hits : list (option F)) : result (list F) :=
  match hits with
  | [] => Ok []
  | hit :: hits' =>
      match hit with
      | None => Raise KeyError
      | Some fields =>
          let! results := fields_of_hits hits' in Ok (fields :: results)
      end
  end.

(** [urls.append(hit['fields']['url'][0])] over the hits. *)
Fixpoint urls_of_hits (hits : list hit) : result (list string) :=
  match hits with
  | [] => Ok []
  | hit :: hits' =>
      let! fields :=
        (match hit_fields hit with
         | None => Raise KeyError
         | Some fields => Ok fields
         end) in
      let! values := getitem fields "url" in
      let! url := index values 0 in
      let! urls := urls_of_hits hits' in
      Ok (url :: urls)
  end.

Section Search.

Variable localhost : ElasticSearch.

(** The type of the ['fields'] dictionary of a hit. *)
Variable F : Type.

(** [es.search(query, index, doc_type, size)] for the requests built
    below: the list [res['hits']['hits']], each hit with its ['fields']
    entry if it has one.  The last argument is the [size] keyword. *)
Variable es_search :
  ElasticSearch -> request -> option string -> string -> option Z ->
  list (option F).

(** The request of [get_most_recent_documents]. *)
Definition most_recent_request (opt_maxNumberOfPages : Z)
    (fields : list string) (opt_filter : option string) : request :=
  {| request_size := Some opt_maxNumberOfPages;
     request_sort := [("retrieved", "desc")];
     request_query :=
       match opt_filter with
       | None => match_all
       | Some opt_filter =>
           query_string ["text"] (join " and  " (split " "%char opt_filter))
       end;
     request_fields :=
       if Nat.ltb 0 (length fields) then Some fields else None |}.

(** [get_most_recent_documents] *)
Definition get_most_recent_documents (opt_maxNumberOfPages : Z)
    (fields : list string) (opt_filter : option string)
    (es_index : option string) (es_doc_type : string)
    (es : option ElasticSearch) : result (list F) :=
  let es := match es with None => localhost | Some es => es end in
  let query := most_recent_request opt_maxNumberOfPages fields opt_filter in
  let hits := es_search es query es_index es_doc_type None in
  fields_of_hits hits.

End Search.

Section AllIds.

Variable localhost : ElasticSearch.

Variable es_search :
  ElasticSearch -> request -> option string -> string -> option Z ->
  list hit.

(** [get_all_ids] *)
Definition get_all_ids (es_index : option string) (es_doc_type : string)
    (es : option ElasticSearch) : result (list string) :=
  let es := match es with None => localhost | Some es => es end in
  let query :=
    {| request_size := None; request_sort := []; request_query := match_all;
       request_fields := Some ["url"] |} in
  let hits := es_search es query es_index es_doc_type (Some 100000%Z) in
  urls_of_hits hits.

End AllIds.

(** The record of the first hit of a term, as the loop of [get_documents]
    computes it: [None] when the term has no hit or its first hit has no
    ['fields']. *)
Definition first_record (es : ElasticSearch) (term_field : string)
    (fields : list string) (es_index : option string) (es_doc_type : string)
    (term : string) : option (result (gmap string string)) :=
  match search es es_index es_doc_type term_field term fields with
  | [] => None
  | hits :: _ =>
      match hit_fields hits with
      | None => None
      | Some hits => Some (fill_record fields hits ∅)
      end
  end.

(** ** models/crawlermodel.py *)

(** The calls into [elastic.add_documents], with the arguments the model
    passes (the connection apart). *)
Inductive gateway_call : Type :=
  | add_document (entries : list (gmap string string))
      (es_index : option string) (es_doc_type : string)
  | update_document (entries : list (gmap string string)) (term_field : string)
      (es_index : option string) (es_doc_type : string).

(** The fields of a [CrawlerModel] instance ([_randomTerms], the
    placeholder data of [getTermsSummaryCrawler], is left out). *)
Record CrawlerModel : Type := Model {
  es : option ElasticSearch;
  _activeCrawlerIndex : option string;
  _filter : option string;
  _pagesCap : Z
}.

(** [__init__] *)
Definition init : CrawlerModel :=
  {| es := None; _activeCrawlerIndex := None; _filter := None;
     _pagesCap := 1000 |}.

(** [setActiveCrawler] *)
Definition setActiveCrawler (self : CrawlerModel) (crawlerId : string)
  : CrawlerModel :=
  {| es := es self; _activeCrawlerIndex := Some crawlerId; _filter := None;
     _pagesCap := _pagesCap self |}.

(** [setPagesCountCap] *)
Definition setPagesCountCap (self : CrawlerModel) (pagesCap : Z) : CrawlerModel :=
  {| es := es self; _activeCrawlerIndex := _activeCrawlerIndex self;
     _filter := _filter self; _pagesCap := pagesCap |}.

(** [applyFilter]: [if terms:] holds for a string that is not empty;
    [None] stands for an absent argument. *)
Definition applyFilter (self : CrawlerModel) (terms : option string)
  : CrawlerModel :=
  match terms with
  | Some (String _ _ as terms) =>
      {| es := es self; _activeCrawlerIndex := _activeCrawlerIndex self;
         _filter := Some terms; _pagesCap := _pagesCap self |}
  | Some EmptyString | None => self
  end.

(** [';'.join(tags)] where [tags] may be [None]. *)
Definition join_object (sep : string) (tags : option (list string))
  : result string :=
  match tags with
  | Some tags => Ok (join sep tags)
  | None => Raise TypeError
  end.

(** The dictionary [{key_field: key, 'tag': tag}]. *)
Definition make_entry (key_field key tag : string) : gmap string string :=
  <["tag" := tag]> (<[key_field := key]> ∅).

(** [for page in pages: entry = ...; if entry: entries.append(entry)] *)
Fixpoint for_each (body : string -> result (gmap string string))
    (pages : list string) (entries : list (gmap string string))
  : result (list (gmap string string)) :=
  match pages with
  | [] => Ok entries
  | page :: pages' =>
      let! entry := body page in
      for_each body pages'
        (if decide (entry = ∅) then entries else entries ++ [entry])
  end.

Section Tagging.

Variable localhost : ElasticSearch.

(** The body of the loop of [setPagesTag] when [applyTagFlag] holds. *)
Definition pages_add_entry (results : gmap string (gmap string string))
    (tag page : string) : result (gmap string string) :=
  if Nat.ltb 0 (size results) then
    match results !! page with
    | None => Ok (make_entry "url" page tag)
    | Some record =>
        let! old := getitem record "tag" in
        if negb (str_in tag old)
        then Ok (make_entry "url" page ((old +:+ ";") +:+ tag))
        else Ok ∅
    end
  else Ok (make_entry "url" page tag).

(** The body of the loop of [setPagesTag] when [applyTagFlag] does not
    hold. *)
Definition pages_remove_entry (results : gmap string (gmap string string))
    (tag page : string) : result (gmap string string) :=
  if Nat.ltb 0 (size results) then
    match results !! page with
    | None => Ok ∅
    | Some record =>
        let! old := getitem record "tag" in
        if str_in tag old then
          let tags := split semicolon old in
          let! tags := list_remove tag tags in
          Ok (make_entry "url" page (join ";" tags))
        else Ok ∅
    end
  else Ok ∅.

(** [setPagesTag]: the calls it makes on the gateway, or the exception. *)
Definition setPagesTag (self : CrawlerModel) (pages : list string)
    (tag : string) (applyTagFlag : bool) : result (list gateway_call) :=
  let! results :=
    get_documents localhost pages "url" ["tag"] (_activeCrawlerIndex self)
      "page" (es self) in
  let! entries :=
    (if applyTagFlag
     then for_each (pages_add_entry results tag) pages []
     else for_each (pages_remove_entry results tag) pages []) in
  Ok [update_document entries "url" (_activeCrawlerIndex self) "page"].

(** The loop of [setTermsTag] when [applyTagFlag] holds. *)
Fixpoint terms_add_loop (results : gmap string (gmap string string))
    (tag : string) (terms : list string)
    (add_entries update_entries : list (gmap string string))
  : result (list (gmap string string) * list (gmap string string)) :=
  match terms with
  | [] => Ok (add_entries, update_entries)
  | term :: terms' =>
      if Nat.ltb 0 (size results) then
        match results !! term with
        | Some record =>
            let! old_tag := getitem record "tag" in
            if negb (str_in tag old_tag) then
              let new_tag := (old_tag +:+ ";") +:+ tag in
              terms_add_loop results tag terms' add_entries
                (update_entries ++ [make_entry "term" term new_tag])
            else terms_add_loop results tag terms' add_entries update_entries
        | None =>
            terms_add_loop results tag terms'
              (add_entries ++ [make_entry "term" term tag]) update_entries
        end
      else
        terms_add_loop results tag terms'
          (add_entries ++ [make_entry "term" term tag]) update_entries
  end.

(** The loop of [setTermsTag] when [applyTagFlag] does not hold.
    [tags = tags.remove(tag)] binds [tags] to the result of [remove],
    which is [None]. *)
Fixpoint terms_remove_loop (results : gmap string (gmap string string))
    (tag : string) (terms : list string)
    (add_entries update_entries : list (gmap string string))
  : result (list (gmap string string) * list (gmap string string)) :=
  match terms with
  | [] => Ok (add_entries, update_entries)
  | term :: terms' =>
      if Nat.ltb 0 (size results) then
        match results !! term with
        | Some record =>
            let! old_tag := getitem record "tag" in
            if str_in tag old_tag then
              let tags := split semicolon old_tag in
              let! tags := (let! _ := list_remove tag tags in Ok None) in
              let! new_tag := join_object ";" tags in
              terms_remove_loop results tag terms' add_entries
                (update_entries ++ [make_entry "term" term new_tag])
            else terms_remove_loop results tag terms' add_entries update_entries
        | None => terms_remove_loop results tag terms' add_entries update_entries
        end
      else terms_remove_loop results tag terms' add_entries update_entries
  end.

(** [setTermsTag]: the calls it makes on the gateway, or the exception. *)
Definition setTermsTag (self : CrawlerModel) (terms : list string)
    (tag : string) (applyTagFlag : bool) : result (list gateway_call) :=
  let! results :=
    get_documents localhost terms "term" ["tag"] (_activeCrawlerIndex self)
      "terms" (es self) in
  let! entries :=
    (if applyTagFlag
     then terms_add_loop results tag terms [] []
     else terms_remove_loop results tag terms [] []) in
  let (add_entries, update_entries) := entries in
  Ok ((match add_entries with
       | [] => []
       | _ => [add_document add_entries (_activeCrawlerIndex self) "terms"]
       end)
      ++
      (match update_entries with
       | [] => []
       | _ => [update_document update_entries "term"
                 (_activeCrawlerIndex self) "terms"]
       end)).

End Tagging.

(** The entries of a tagging batch, id by id, from the records that
    [get_documents] returned.  A create is called for by an id without
    record, and carries the tag alone. *)
Definition created_entry (key_field : string)
    (results : gmap string (gmap string string)) (tag id : string)
  : option (gmap string string) :=
  match results !! id with
  | None => Some (make_entry key_field id tag)
  | Some _ => None
  end.

(** An update is called for by an id with a record in whose tag string
    the tag does not occur, and carries that string with the tag
    appended. *)
Definition updated_entry (key_field : string)
    (results : gmap string (gmap string string)) (tag id : string)
  : option (gmap string string) :=
  match results !! id with
  | Some record =>
      match record !! "tag" with
      | Some old =>
          if str_in tag old then None
          else Some (make_entry key_field id ((old +:+ ";") +:+ tag))
      | None => None
      end
  | None => None
  end.

(** The entry of an id when a tag is added: its create or its update. *)
Definition tagged_entry (key_field : string)
    (results : gmap string (gmap string string)) (tag id : string)
  : option (gmap string string) :=
  match created_entry key_field results tag id with
  | Some entry => Some entry
  | None => updated_entry key_field results tag id
  end.

(** The entry of an id when a tag is removed: an update for an id with a
    record in whose tag string the tag occurs, which carries the tags of
    that string without the first occurrence of the tag. *)
Definition untagged_entry (key_field : string)
    (results : gmap string (gmap string string)) (tag id : string)
  : option (gmap string string) :=
  match results !! id with
  | Some record =>
      match record !! "tag" with
      | Some old =>
          if str_in tag old then
            match list_remove tag (split semicolon old) with
            | Ok tags => Some (make_entry key_field id (join ";" tags))
            | Raise _ => None
            end
          else None
      | None => None
      end
  | None => None
  end.

(** The dictionary [getPagesSummarySeedCrawler] returns. *)
Record summary : Type := Summary {
  Relevant : nat;
  Irrelevant : nat;
  Neutral : nat
}.

(** The counting loop of [getPagesSummarySeedCrawler]: [res['tag']] raises
    [KeyError] for a document without the field, which the handler counts
    as neutral. *)
Fixpoint tally (results : list (gmap string value))
    (relevant irrelevant neutral : nat) : summary :=
  match results with
  | [] =>
      {| Relevant := relevant; Irrelevant := irrelevant; Neutral := neutral |}
  | res :: results' =>
      match getitem res "tag" with
      | Ok tags =>
          if contains "Relevant" tags then
            tally results' (relevant + 1) irrelevant neutral
          else if contains "Irrelevant" tags then
            tally results' relevant (irrelevant + 1) neutral
          else tally results' relevant irrelevant (neutral + 1)
      | Raise _ => tally results' relevant irrelevant (neutral + 1)
      end
  end.

(** The bucket in which the loop counts one document. *)
Definition counted_relevant (res : gmap string value) : bool :=
  match res !! "tag" with
  | Some tags => contains "Relevant" tags
  | None => false
  end.

Definition counted_irrelevant (res : gmap string value) : bool :=
  match res !! "tag" with
  | Some tags => negb (contains "Relevant" tags) && contains "Irrelevant" tags
  | None => false
  end.

Definition counted_neutral (res : gmap string value) : bool :=
  negb (counted_relevant res) && negb (counted_irrelevant res).

Section Summary.

(** The floating-point numbers of the bounds, and the values a caller
    passes for them.  [float] is Python's conversion, which rounds and
    which raises for a value that is no number; [origin] is
    [float(time.mktime(time.localtime(0)))]. *)
Variable timestamp : Type.
Variable argument : Type.
Variable float : argument -> result timestamp.
Variable origin : timestamp.

(** [elastic.search_documents.range], with the arguments of its call: the
    field, the two bounds, the fields to return, the epoch flag, the index
    and the connection. *)
Variable range :
  string -> timestamp -> timestamp -> list string -> bool -> option string ->
  option ElasticSearch -> list (gmap string value).

(** [getPagesSummarySeedCrawler]; [now] is the clock reading
    [float(time.mktime(time.localtime()))]. *)
Definition getPagesSummarySeedCrawler (now : timestamp) (self : CrawlerModel)
    (opt_ts1 opt_ts2 : option argument) (opt_applyFilter : bool)
  : result summary :=
  let! opt_ts1 :=
    (match opt_ts1 with None => Ok origin | Some ts1 => float ts1 end) in
  let! opt_ts2 :=
    (match opt_ts2 with None => Ok now | Some ts2 => float ts2 end) in
  let results :=
    if opt_applyFilter then
      range "retrieved" opt_ts1 opt_ts2 ["url"; "tag"] true
        (_activeCrawlerIndex self) (es self)
    else
      range "retrieved" opt_ts1 opt_ts2 ["url"; "tag"] true
        (_activeCrawlerIndex self) (es self) in
  Ok (tally results 0 0 0).

End Summary.

(** One row [[term, pos_freq, neg_freq, tags]] of the terms summary. *)
Definition term_row : Type := string * Z * Z * list string.

(** [0 if ttfs.get(key) is None else ttfs.get(key)] *)
Definition ttf_or_zero (ttfs : gmap string Z) (key : string) : Z :=
  match ttfs !! key with
  | None => 0%Z
  | Some ttf => ttf
  end.

(** The final loop of [getTermsSummarySeedCrawler] over [top_terms]. *)
Fixpoint term_rows (tags : gmap string (gmap string string))
    (pos_freq neg_freq : gmap string Z) (top_terms : list string)
    (terms : list term_row) : result (list term_row) :=
  match top_terms with
  | [] => Ok terms
  | term :: top_terms' =>
      let! pos := getitem pos_freq term in
      let! neg := getitem neg_freq term in
      let! entry3 :=
        match tags !! term with
        | None => Ok []
        | Some record =>
            let! tag := getitem record "tag" in Ok (split semicolon tag)
        end in
      term_rows tags pos_freq neg_freq top_terms'
        (terms ++ [(term, pos, neg, entry3)])
  end.

Section TermsSummary.

Variable localhost : ElasticSearch.

(** [elastic.search_documents.term_search], with the arguments of its
    call, and the search of [get_all_ids]. *)
Variable term_search :
  string -> list string -> option string -> string -> option ElasticSearch ->
  list string.
Variable es_search :
  ElasticSearch -> request -> option string -> string -> option Z ->
  list hit.

(** The ranking package: [extract_terms(tfidf(urls)).getTopTerms(n)] and
    [tfidf(urls).getTtf()]. *)
Variable getTopTerms : list string -> nat -> list string.
Variable getTtf : list string -> gmap string Z.

(** The positive urls of [getTermsSummarySeedCrawler]: those tagged
    [Relevant], and all the urls of the dataset when none is. *)
Definition positive_urls (self : CrawlerModel) : result (list string) :=
  let pos_urls :=
    term_search "tag" ["Relevant"] (_activeCrawlerIndex self) "page" (es self) in
  if Nat.eqb (length pos_urls) 0
  then get_all_ids localhost es_search (_activeCrawlerIndex self) "page"
         (es self)
  else Ok pos_urls.

(** [getTermsSummarySeedCrawler] *)
Definition getTermsSummarySeedCrawler (self : CrawlerModel)
    (opt_maxNumberOfTerms : nat) : result (list term_row) :=
  let terms := [] in
  let pos_urls :=
    term_search "tag" ["Relevant"] (_activeCrawlerIndex self) "page" (es self) in
  let pos_urls_found := negb (Nat.eqb (length pos_urls) 0) in
  let! pos_urls :=
    (if Nat.eqb (length pos_urls) 0
     then get_all_ids localhost es_search (_activeCrawlerIndex self) "page"
            (es self)
     else Ok pos_urls) in
  if Nat.ltb 1 (length pos_urls) then
    let top_terms := getTopTerms pos_urls opt_maxNumberOfTerms in
    let! tags :=
      get_documents localhost top_terms "term" ["tag"]
        (_activeCrawlerIndex self) "terms" (es self) in
    let pos_freq :=
      if pos_urls_found
      then dict_comp (ttf_or_zero (getTtf pos_urls)) top_terms
      else dict_comp (fun _ => 0%Z) top_terms in
    let neg_urls :=
      term_search "tag" ["Irrelevant"] (_activeCrawlerIndex self) "page"
        (es self) in
    let neg_freq :=
      if Nat.ltb 1 (length neg_urls)
      then dict_comp (ttf_or_zero (getTtf neg_urls)) top_terms
      else dict_comp (fun _ => 0%Z) top_terms in
    term_rows tags pos_freq neg_freq top_terms terms
  else Ok terms.

End TermsSummary.

Section Projection.

(** The floating-point numbers of the coordinates and of the matrices. *)
Variable coord : Type.

(** A page as [getPages] builds it: [[url, x, y, tags, retrieved]]. *)
Record page : Type := Page {
  url : string;
  x : coord;
  y : coord;
  tags : list string;
  retrieved : string
}.

(** The page with its coordinates replaced: [page[1] = px; page[2] = py]. *)
Definition with_coordinates (p : page) (px py : coord) : page :=
  {| url := url p; x := px; y := py; tags := tags p; retrieved := retrieved p |}.

(** [elastic.get_mtermvectors.getTermStatistics] for the urls, the index
    and the document type: the matrix (as [data.toarray()] gives it) and
    the corpus. *)
Variable getTermStatistics :
  list string -> option string -> string -> list (list coord) * list string.

(** scikit-learn's [PCA(n_components)] fitted on a matrix: its
    [explained_variance_ratio_] and its [transform] of that matrix. *)
Variable explained_variance_ratio : option nat -> list (list coord) -> list coord.
Variable transform : option nat -> list (list coord) -> list (list coord).

(** [term_tfidf] *)
Definition term_tfidf (self : CrawlerModel) (urls : list string)
  : list string * list string * list (list coord) :=
  let '(data, corpus) := getTermStatistics urls (_activeCrawlerIndex self) "page" in
  (urls, corpus, data).

(** [runPCASKLearn] *)
Definition runPCASKLearn (X : list (list coord)) (pc_count : option nat)
  : list coord * list (list coord) :=
  (explained_variance_ratio pc_count X, transform pc_count X).

(** The loop of [pcaProjectPages] from position [i] on. *)
Fixpoint assign_coordinates (reduced : list (list coord)) (i : nat)
    (pages : list page) : result (list page) :=
  match pages with
  | [] => Ok []
  | page :: pages' =>
      if Nat.leb (length reduced) i then Ok pages
      else
        let! row := index reduced i in
        let! page1 := index row 0 in
        let! page2 := index row 1 in
        let! pages' := assign_coordinates reduced (S i) pages' in
        Ok (with_coordinates page page1 page2 :: pages')
  end.

(** [pcaProjectPages] *)
Definition pcaProjectPages (self : CrawlerModel) (pages : list page)
  : result (list page) :=
  let urls := map url pages in
  let '(_, _, data) := term_tfidf self urls in
  let pca_count := 2 in
  let pcadata := runPCASKLearn data (Some pca_count) in
  assign_coordinates (snd pcadata) 0 pages.

(** [projectPages] *)
Definition projectPages (self : CrawlerModel) (pages : list page)
  : result (list page) :=
  pcaProjectPages self pages.

End Projection.

Arguments Page {coord} _ _ _ _ _.
Arguments url {coord} _.
Arguments x {coord} _.
Arguments y {coord} _.
Arguments tags {coord} _.
Arguments retrieved {coord} _.
Arguments with_coordinates {coord} _ _ _.

(** ** The document gateway and the stored pages *)

Module Gateway.

(** Modelled from the spec: the store behind the Document Gateway
    ([es.search], [add_document], [update_document] of the [elastic]
    package), for one dataset and document type.  A page is identified by
    its URL and a term by its text, a unique key within a dataset, so the
    store maps that key to the stored fields of the document.
    [find store term fields] is the gateway's answer to "fetch documents by
    field/value": the document of that key, with the requested fields that
    it stores; an identifier without a document, or without any of the
    fields, has no record. *)
Definition find (store : gmap string (gmap string string)) (term : string)
    (fields : list string) : list hit :=
  match store !! term with
  | None => []
  | Some doc =>
      let found := filter (fun kv => kv.1 ∈ fields) doc in
      [ Hit (if decide (found = ∅) then None
             else Some ((fun v => [v]) <$> found)) ]
  end.

(** Modelled from the spec: a connection whose term queries are answered
    from the store. *)
Definition connection (store : gmap string (gmap string string))
  : ElasticSearch :=
  {| search := fun _ _ _ term fields => find store term fields |}.

(** Modelled from the spec: the gateway's "upsert documents".  The entry's
    fields are written over those of the document with the entry's key,
    which is created when there is none. *)
Definition upsert (key_field : string)
    (store : gmap string (gmap string string)) (entry : gmap string string)
  : gmap string (gmap string string) :=
  match entry !! key_field with
  | None => store
  | Some key => <[key := entry ∪ default ∅ (store !! key)]> store
  end.

(** Modelled from the spec: the key field of a document type, terms by
    their text and pages by URL. *)
Definition key_field (es_doc_type : string) : string :=
  if String.eqb es_doc_type "terms" then "term" else "url".

(** Modelled from the spec: [create(records, datasetId, docType)] and
    [update(records, keyField, datasetId, docType)], the effect of one
    gateway call on the store. *)
Definition submit (store : gmap string (gmap string string))
    (call : gateway_call) : gmap string (gmap string string) :=
  match call with
  | add_document entries _ es_doc_type =>
      foldl (upsert (key_field es_doc_type)) store entries
  | update_document entries term_field _ _ =>
      foldl (upsert term_field) store entries
  end.

(** The tag string stored for an identifier, if any. *)
Definition stored_tag (store : gmap string (gmap string string)) (id : string)
  : option string :=
  match store !! id with
  | None => None
  | Some doc => doc !! "tag"
  end.

(** What [get_documents] returns for the batch of the one identifier
    [id], asked for the field ['tag']. *)
Definition record_of (store : gmap string (gmap string string)) (id : string)
  : gmap string (gmap string string) :=
  match stored_tag store id with
  | Some old => <[id := <["tag" := old]> ∅]> ∅
  | None => ∅
  end.

(** The session connected to the store. *)
Definition connect (self : CrawlerModel)
    (store : gmap string (gmap string string)) : CrawlerModel :=
  {| es := Some (connection store);
     _activeCrawlerIndex := _activeCrawlerIndex self;
     _filter := _filter self; _pagesCap := _pagesCap self |}.

(** [tagPages]: [setPagesTag] run against the store, and the store after
    its calls. *)
Definition tagPages (self : CrawlerModel)
    (store : gmap string (gmap string string)) (urls : list string)
    (tag : string) (add : bool) : result (gmap string (gmap string string)) :=
  let! calls :=
    setPagesTag (connection store) (connect self store) urls tag add in
  Ok (foldl submit store calls).

(** [tagTerms]: [setTermsTag] run against the store, and the store after
    its calls. *)
Definition tagTerms (self : CrawlerModel)
    (store : gmap string (gmap string string)) (terms : list string)
    (tag : string) (add : bool) : result (gmap string (gmap string string)) :=
  let! calls :=
    setTermsTag (connection store) (connect self store) terms tag add in
  Ok (foldl submit store calls).

(** Modelled from the spec: a stored page with the attributes the summary
    needs, its URL, its text, [retrievedAt] and its tag string if it has
    one. *)
Record stored_page : Type := StoredPage {
  page_url : string;
  page_text : string;
  page_retrieved : Z;
  page_tag : option string
}.

(** The fields ['url'] and ['tag'] of a stored page, as one result of
    [range]. *)
Definition page_fields (p : stored_page) : gmap string value :=
  match page_tag p with
  | None => {[ "url" := Str (page_url p) ]}
  | Some tag => <["tag" := Str tag]> {[ "url" := Str (page_url p) ]}
  end.

Definition retrieved_within (ts1 ts2 : Z) (p : stored_page) : bool :=
  Z.leb ts1 (page_retrieved p) && Z.leb (page_retrieved p) ts2.

(** Modelled from the spec: [range] over the stored pages, the documents
    whose [retrievedAt] falls in [[ts1, ts2]]. *)
Definition range_over (pages : list stored_page) (field : string)
    (ts1 ts2 : Z) (ret_fields : list string) (epoch : bool)
    (es_index : option string) (es : option ElasticSearch)
  : list (gmap string value) :=
  map page_fields (List.filter (retrieved_within ts1 ts2) pages).

(** Modelled from the spec: a filter is a conjunction of its
    space-separated terms over the text of a page; an absent filter
    matches everything. *)
Definition matches (text_filter : option string) (p : stored_page) : bool :=
  match text_filter with
  | None => true
  | Some terms =>
      forallb (fun term => str_in term (page_text p)) (split " "%char terms)
  end.

(** Modelled from the spec: the summary of section 4.3, over the pages
    retrieved in [[ts1, ts2]] and, when [applyFilter] holds, matching the
    active filter. *)
Definition pageSummary (pages : list stored_page) (self : CrawlerModel)
    (ts1 ts2 : Z) (applyFilter : bool) : summary :=
  tally
    (map page_fields
       (List.filter
          (fun p => retrieved_within ts1 ts2 p
                    && (if applyFilter then matches (_filter self) p else true))
          pages))
    0 0 0.

End Gateway.

Import Gateway.

(** ** The tag set codec of the specification *)

(** The spec's [encode] is the join the source writes out,
    [';'.join(tags)]. *)
Definition encode (tags : list string) : string := join ";" tags.

(** The spec's [decode] where the source decodes a stored string,
    [tag.split(';')]. *)
Definition decode (raw : string) : list string := split semicolon raw.

(** [doc[3]] of [getPages] and [tag] of [getTermSnippets]: the empty list
    for an absent field, the split of the stored string otherwise. *)
Definition decode_field (raw : option string) : list string :=
  match raw with
  | None => []
  | Some raw => decode raw
  end.

(** ** The session as a sequence of calls *)

(** The calls that change the fields of a [CrawlerModel]. *)
Inductive session_call : Type :=
  | call_setActiveCrawler (crawlerId : string)
  | call_applyFilter (terms : option string)
  | call_setPagesCountCap (pagesCap : Z).

Definition session_step (self : CrawlerModel) (c : session_call)
  : CrawlerModel :=
  match c with
  | call_setActiveCrawler crawlerId => setActiveCrawler self crawlerId
  | call_applyFilter terms => applyFilter self terms
  | call_setPagesCountCap pagesCap => setPagesCountCap self pagesCap
  end.

(** The session after the calls, made in order on a fresh instance. *)
Definition session_after (calls : list session_call) : CrawlerModel :=
  foldl session_step init calls.

(** The last text of the list that is not empty, if there is one. *)
Fixpoint last_text (filters : list (option string)) : option string :=
  match filters with
  | [] => None
  | terms :: filters' =>
      match last_text filters' with
      | Some text => Some text
      | None =>
          match terms with
          | Some (String _ _ as text) => Some text
          | _ => None
          end
      end
  end.

(** ** The rest of models/crawlermodel.py *)

(** [for term in terms] over a string: its characters, each a string. *)
Fixpoint chars (s : string) : list string :=
  match s with
  | EmptyString => []
  | String a s' => String a EmptyString :: chars s'
  end.

Section TermSnippets.

Variable localhost : ElasticSearch.

(** The context snippets, and [elastic.search_documents.get_context] with
    the arguments of its call. *)
Variable context : Type.
Variable get_context :
  list string -> option string -> string -> option ElasticSearch -> context.

(** The dictionary [getTermSnippets] returns. *)
Record snippets : Type := Snippets {
  snippets_term : string;
  snippets_tags : list string;
  snippets_context : context
}.

(** [getTermSnippets].  The term itself is passed as the [terms] of
    [get_documents], which takes its length and iterates over it. *)
Definition getTermSnippets (self : CrawlerModel) (term : string)
  : result snippets :=
  let! tags :=
    get_documents localhost (chars term) "term" ["tag"]
      (_activeCrawlerIndex self) "terms" (es self) in
  let! tag :=
    (if Nat.ltb 0 (size tags) then
       let! record := getitem tags term in
       let! tag := getitem record "tag" in
       Ok (split semicolon tag)
     else Ok []) in
  Ok {| snippets_term := term; snippets_tags := tag;
        snippets_context :=
          get_context [term] (_activeCrawlerIndex self) "page" (es self) |}.

End TermSnippets.

Arguments Snippets {context} _ _ _.
Arguments snippets_term {context} _.
Arguments snippets_tags {context} _.
Arguments snippets_context {context} _.

Section Pages.

Variable localhost : ElasticSearch.

Variable coord : Type.

(** The number [0] of the default coordinates. *)
Variable zero : coord.

(** The ['fields'] of a hit of [getPages], with the five fields it asks
    for: each is absent or a list of values, of strings for ['url'],
    ['tag'] and ['retrieved'] and of numbers for ['x'] and ['y']. *)
Record page_hit : Type := PageHit {
  hit_url : option (list string);
  hit_x : option (list coord);
  hit_y : option (list coord);
  hit_tag : option (list string);
  hit_retrieved : option (list string)
}.

Variable es_search :
  ElasticSearch -> request -> option string -> string -> option Z ->
  list (option page_hit).

(** The collaborators of the projection, as for [pcaProjectPages]. *)
Variable getTermStatistics :
  list string -> option string -> string -> list (list coord) * list string.
Variable explained_variance_ratio : option nat -> list (list coord) -> list coord.
Variable transform : option nat -> list (list coord) -> list (list coord).

(** The epoch type, and [convert_to_epoch(datetime.strptime(s,
    '%Y-%m-%dT%H:%M:%S.%f'))], which raises [ValueError] for a string of
    another format. *)
Variable epoch : Type.
Variable strptime_epoch : string -> result epoch.

(** [hit[field][0]] when [hit.get(field)] is not [None], the default
    otherwise. *)
Definition first_or {V : Type} (field : option (list V)) (default : V)
  : result V :=
  match field with
  | None => Ok default
  | Some values => index values 0
  end.

(** One [doc] of [getPages], from [["", 0, 0, [], 0]].  The page carries
    [doc[0]] to [doc[3]]; [doc[4]] is kept beside it, [None] standing for
    the default [0], which is no string. *)
Definition doc_of_hit (hit : page_hit) : result (page coord * option string) :=
  let! doc0 := first_or (hit_url hit) "" in
  let! doc1 := first_or (hit_x hit) zero in
  let! doc2 := first_or (hit_y hit) zero in
  let! doc3 :=
    (match hit_tag hit with
     | None => Ok []
     | Some values => let! tag := index values 0 in Ok (split semicolon tag)
     end) in
  let! doc4 :=
    (match hit_retrieved hit with
     | None => Ok None
     | Some values => let! retrieved := index values 0 in Ok (Some retrieved)
     end) in
  Ok ({| url := doc0; x := doc1; y := doc2; tags := doc3;
         retrieved := match doc4 with None => "" | Some retrieved => retrieved end |},
      doc4).

(** The loop of [getPages] over the hits. *)
Fixpoint docs_of_hits (hits : list page_hit)
  : result (list (page coord * option string)) :=
  match hits with
  | [] => Ok []
  | hit :: hits' =>
      let! doc := doc_of_hit hit in
      let! docs := docs_of_hits hits' in
      Ok (doc :: docs)
  end.

(** The dictionary [getPages] returns when there are pages. *)
Record pages_result : Type := PagesResult {
  last_downloaded_url_epoch : epoch;
  result_pages : list (string * coord * coord * list string)
}.

(** The hits of the search that [getPages] makes: the most recent pages,
    under the cap and the filter of the session. *)
Definition page_hits (self : CrawlerModel) : list (option page_hit) :=
  es_search (match es self with None => localhost | Some es => es end)
    (most_recent_request (_pagesCap self)
       ["url"; "x"; "y"; "tag"; "retrieved"] (_filter self))
    (_activeCrawlerIndex self) "page" None.

(** [getPages]: [None] is the empty dictionary.  The projection updates
    the documents in place, so the pages returned are those it returns. *)
Definition getPages (self : CrawlerModel) : result (option pages_result) :=
  let! hits :=
    get_most_recent_documents localhost page_hit es_search (_pagesCap self)
      ["url"; "x"; "y"; "tag"; "retrieved"] (_filter self)
      (_activeCrawlerIndex self) "page" (es self) in
  let! docs := docs_of_hits hits in
  match docs with
  | [] => Ok None
  | (_, doc4) :: _ =>
      let! docs :=
        projectPages coord getTermStatistics explained_variance_ratio
          transform self (map fst docs) in
      let! last_download_epoch :=
        (match doc4 with
         | None => Raise TypeError
         | Some last_downloaded_url_epoch =>
             strptime_epoch last_downloaded_url_epoch
         end) in
      Ok (Some {| last_downloaded_url_epoch := last_download_epoch;
                  result_pages :=
                    map (fun page => (url page, x page, y page, tags page))
                      docs |})
  end.

End Pages.

Arguments PageHit {coord} _ _ _ _ _.
Arguments hit_url {coord} _.
Arguments hit_x {coord} _.
Arguments hit_y {coord} _.
Arguments hit_tag {coord} _.
Arguments hit_retrieved {coord} _.
Arguments result_pages {coord epoch} _.
Arguments last_downloaded_url_epoch {coord epoch} _.

(** ** elastic/load_config.py *)

Section LoadConfig.

(** The values of a configuration entry, and the readings of
    [datetime.utcnow()], the [k]-th call returning [utcnow k].  A field
    set to [None] is one the file gives as [null]. *)
Variable json : Type.
Variable utcnow : nat -> json.

(** The loop of [load_config] over the entries, [calls] counting the
    readings of the clock made so far. *)
Fixpoint stamp_entries (entries : list (gmap string (option json)))
    (calls : nat) : list (gmap string (option json)) :=
  match entries with
  | [] => []
  | entry :: entries' =>
      match entry !! "timestamp" with
      | Some (Some _) => entry :: stamp_entries entries' calls
      | Some None | None =>
          <["timestamp" := Some (utcnow calls)]> entry
          :: stamp_entries entries' (S calls)
      end
  end.

(** [load_config] on the parsed file [data]: the arguments of its one
    [add_document] call, which are the entries, the index and the
    document type; [KeyError] when the file has no ['entries']. *)
Definition load_config (data : gmap string (list (gmap string (option json))))
    (es_index es_doc_type : string)
  : result (list (gmap string (option json)) * string * string) :=
  let! entries := getitem data "entries" in
  let updated_entries := stamp_entries entries 0 in
  Ok (updated_entries, es_index, es_doc_type).

End LoadConfig.

(** The call is no [setActiveCrawler]. *)
Definition keeps_crawler (c : session_call) : bool :=
  match c with
  | call_setActiveCrawler _ => false
  | _ => true
  end.

(** The hits of the batch are well formed: no list of values of a field
    asked for is empty. *)
Definition values_present (es : ElasticSearch) (term_field : string)
    (fields : list string) (es_index : option string) (es_doc_type : string)
    (terms : list string) : Prop :=
  ∀ term hits rest values field,
    term ∈ terms →
    search es es_index es_doc_type term_field term fields = hits :: rest →
    hit_fields hits = Some values →
    field ∈ fields →
    values !! field ≠ Some [].

(** The tag string that tagging with [tag] writes for a page of the
    store, if it writes one. *)
Definition written_tag (store : gmap string (gmap string string))
    (tag id : string) : option string :=
  match stored_tag store id with
  | None => Some tag
  | Some old => if str_in tag old then None else Some ((old +:+ ";") +:+ tag)
  end.

(** The entry that tagging emits for a page, empty for none. *)
Definition written_entry (store : gmap string (gmap string string))
    (tag id : string) : gmap string string :=
  match written_tag store tag id with
  | Some new_tag => make_entry "url" id new_tag
  | None => ∅
  end.

(** The entries that tagging a batch emits. *)
Definition written_entries (store : gmap string (gmap string string))
    (tag : string) (pages : list string) : list (gmap string string) :=
  List.filter (λ e : gmap string string, negb (bool_decide (e = ∅)))
    (map (written_entry store tag) pages).

(** ** Strings: [split], [join] and the substring test *)

Section Strings.

Variable c : ascii.

Lemma append_nil (s : string) : "" +:+ s = s.
Proof. reflexivity. Qed.

Lemma append_cons (a : ascii) (s t : string) :
  String a s +:+ t = String a (s +:+ t).
Proof. reflexivity. Qed.

Lemma split_not_nil (s : string) : split c s ≠ [].
Proof.
  destruct s as [|a s]; simpl; [done|].
  destruct (Ascii.eqb a c); [done|]. by destruct (split c s).
Qed.

Lemma prefix_refl (s : string) : String.prefix s s = true.
Proof.
  induction s as [|a s IH]; simpl; [done|].
  destruct (ascii_dec a a); [exact IH | congruence].
Qed.

Lemma prefix_cons (a : ascii) (s t : string) :
  String.prefix (String a s) (String a t) = String.prefix s t.
Proof. simpl. destruct (ascii_dec a a); [done | congruence]. Qed.

Lemma split_head_prefix (s : string) :
  ∃ piece pieces, split c s = piece :: pieces ∧ String.prefix piece s = true.
Proof.
  induction s as [|a s (piece & pieces & Hs & Hp)].
  - by exists "", [].
  - cbn [split]. destruct (Ascii.eqb a c).
    + by exists "", (split c s).
    + rewrite Hs. exists (String a piece), pieces. by rewrite prefix_cons.
Qed.

Lemma str_in_prefix (sub s : string) :
  String.prefix sub s = true → str_in sub s = true.
Proof. intros H. destruct s; simpl in *; rewrite H; done. Qed.

Lemma str_in_cons (sub : string) (a : ascii) (s : string) :
  str_in sub s = true → str_in sub (String a s) = true.
Proof. intros H. cbn [str_in]. rewrite H. apply orb_true_r. Qed.

Lemma str_in_refl (s : string) : str_in s s = true.
Proof. apply str_in_prefix, prefix_refl. Qed.

Lemma str_in_app_r (sub s : string) : str_in sub (s +:+ sub) = true.
Proof.
  induction s as [|a s IH]; rewrite ?append_nil, ?append_cons.
  - apply str_in_refl.
  - by apply str_in_cons.
Qed.

(** A member of the split is a substring. *)
Lemma elem_of_split_str_in (tag s : string) :
  tag ∈ split c s → str_in tag s = true.
Proof.
  induction s as [|a s IH]; cbn [split].
  - intros ->%list_elem_of_singleton. done.
  - destruct (split_head_prefix s) as (piece & pieces & Hs & Hp).
    destruct (Ascii.eqb a c).
    + intros [->|Hin]%elem_of_cons; [by destruct s | by apply str_in_cons, IH].
    + rewrite Hs in IH |- *.
      intros [->|Hin]%elem_of_cons.
      * apply str_in_prefix. by rewrite prefix_cons.
      * apply str_in_cons, IH. by right.
Qed.

Lemma split_app_sep (s t : string) :
  split c (s +:+ String c t) = split c s ++ split c t.
Proof.
  induction s as [|a s IH]; rewrite ?append_nil, ?append_cons; cbn [split].
  - by rewrite Ascii.eqb_refl.
  - rewrite IH. destruct (Ascii.eqb a c); [done|].
    pose proof (split_not_nil s). by destruct (split c s).
Qed.

Lemma split_no_sep (s : string) : has_char c s = false → split c s = [s].
Proof.
  induction s as [|a s IH]; cbn [split has_char]; [done|].
  intros [Ha Hs]%orb_false_iff. rewrite Ha, (IH Hs). done.
Qed.

Lemma join_split (s : string) : join (String c "") (split c s) = s.
Proof.
  unfold join. induction s as [|a s IH]; cbn [split]; [done|].
  pose proof (split_not_nil s) as Hnil.
  destruct (Ascii.eqb a c) eqn:Ha.
  - apply Ascii.eqb_eq in Ha as ->.
    destruct (split c s) as [|piece pieces]; [done|].
    change (String.concat (String c "") ("" :: piece :: pieces))
      with ("" +:+ String c "" +:+ String.concat (String c "") (piece :: pieces)).
    by rewrite IH.
  - destruct (split c s) as [|piece [|piece' pieces]]; [done| |].
    + cbn in IH |- *. by rewrite IH.
    + cbn [String.concat] in IH |- *. rewrite append_cons. by rewrite IH.
Qed.

Lemma split_join (l : list string) :
  l ≠ [] → Forall (λ t, has_char c t = false) l →
  split c (join (String c "") l) = l.
Proof.
  unfold join. intros Hnil Hall. induction Hall as [|t l Ht Hall IH]; [done|].
  destruct l as [|t' l].
  - cbn. by apply split_no_sep.
  - change (String.concat (String c "") (t :: t' :: l))
      with (t +:+ String c (String.concat (String c "") (t' :: l))).
    rewrite split_app_sep, (split_no_sep t Ht), IH; done.
Qed.

End Strings.

(** Python's answers on the strings of the tool. *)
Example split_empty_string : split semicolon "" = [""].
Proof. reflexivity. Qed.

Example split_two_tags :
  split semicolon "Negative;Positive" = ["Negative"; "Positive"].
Proof. reflexivity. Qed.

Example join_two_tags : join ";" ["Negative"; "Positive"] = "Negative;Positive".
Proof. reflexivity. Qed.

Example join_no_tag : join ";" [] = "".
Proof. reflexivity. Qed.

Example str_in_is_case_sensitive : str_in "Relevant" "Irrelevant" = false.
Proof. reflexivity. Qed.

Example str_in_is_substring : str_in "Relevant" "NotRelevant" = true.
Proof. reflexivity. Qed.

Example str_in_empty : str_in "" "Positive" = true.
Proof. reflexivity. Qed.

Lemma list_remove_app_last (tag : string) (l : list string) :
  tag ∉ l → list_remove tag (l ++ [tag]) = Ok l.
Proof.
  induction l as [|t l IH]; simpl.
  - by rewrite String.eqb_refl.
  - intros [Hne Hl]%not_elem_of_cons.
    destruct (String.eqb_spec t tag) as [->|_]; [done|].
    by rewrite (IH Hl).
Qed.

Lemma list_remove_elem_of (tag : string) (l : list string) :
  tag ∈ l →
  ∃ l1 l2,
    l = l1 ++ tag :: l2 ∧ (tag ∉ l1) ∧ list_remove tag l = Ok (l1 ++ l2).
Proof.
  induction l as [|t l IH]; [by intros ?%elem_of_nil|].
  intros Hin. simpl. destruct (String.eqb_spec t tag) as [->|Hne].
  - exists [], l. split_and!; [done | apply not_elem_of_nil | done].
  - apply elem_of_cons in Hin as [->|Hin]; [done|].
    destruct (IH Hin) as (l1 & l2 & -> & Hl1 & ->).
    exists (t :: l1), l2. split_and!; [done | | done].
    apply not_elem_of_cons. split; [congruence | done].
Qed.

Lemma list_remove_not_elem_of (tag : string) (l : list string) :
  tag ∉ l → list_remove tag l = Raise ValueError.
Proof.
  induction l as [|t l IH]; [done|].
  intros [Hne Hl]%not_elem_of_cons. simpl.
  destruct (String.eqb_spec t tag) as [->|_]; [done|]. by rewrite (IH Hl).
Qed.

(** ** The reconciler loops *)

Lemma make_entry_not_empty (key_field key tag : string) :
  make_entry key_field key tag ≠ ∅.
Proof. unfold make_entry. apply insert_non_empty. Qed.

Lemma make_entry_key (key_field key tag : string) :
  key_field ≠ "tag" → make_entry key_field key tag !! key_field = Some key.
Proof.
  intros Hne. unfold make_entry.
  rewrite lookup_insert_ne by done. apply lookup_insert_eq.
Qed.

Lemma make_entry_tag (key_field key tag : string) :
  make_entry key_field key tag !! "tag" = Some tag.
Proof. unfold make_entry. apply lookup_insert_eq. Qed.

(** Entries are appended in the order of the batch. *)
Lemma for_each_Ok (body : string → result (gmap string string))
    (f : string → gmap string string) (pages : list string)
    (entries : list (gmap string string)) :
  (∀ page, page ∈ pages → body page = Ok (f page)) →
  for_each body pages entries
  = Ok (entries ++ List.filter (λ e, negb (bool_decide (e = ∅))) (map f pages)).
Proof.
  revert entries. induction pages as [|page pages IH]; intros entries Hbody.
  - simpl. by rewrite app_nil_r.
  - cbn [for_each map List.filter]. rewrite (Hbody page) by left. cbn [bind].
    rewrite IH by (intros; apply Hbody; by right).
    destruct (decide (f page = ∅)) as [He|He].
    + by rewrite (bool_decide_eq_true_2 _ He).
    + rewrite (bool_decide_eq_false_2 _ He). cbn [negb]. by rewrite <- app_assoc.
Qed.

Lemma size_pos_lookup {V : Type} (m : gmap string V) (k : string) (v : V) :
  m !! k = Some v → Nat.ltb 0 (size m) = true.
Proof.
  intros Hk. apply Nat.ltb_lt.
  destruct (size m) eqn:Hsize; [|lia].
  apply map_size_empty_inv in Hsize. subst. by rewrite lookup_empty in Hk.
Qed.

Section Reconciler.

Variable results : gmap string (gmap string string).
Variables tag id : string.

(** No stored record: a create with the tag alone. *)
Lemma pages_add_entry_no_record :
  results !! id = None →
  pages_add_entry results tag id = Ok (make_entry "url" id tag).
Proof.
  intros Hid. unfold pages_add_entry. rewrite Hid.
  by destruct (Nat.ltb 0 (size results)).
Qed.

(** A stored tag string of which the tag is no substring: an update with
    the tag appended, which decodes to the old tags and then the tag. *)
Lemma pages_add_entry_appends (record : gmap string string) (old : string) :
  results !! id = Some record → record !! "tag" = Some old →
  str_in tag old = false →
  pages_add_entry results tag id
  = Ok (make_entry "url" id ((old +:+ ";") +:+ tag)).
Proof.
  intros Hid Hold Hsub. unfold pages_add_entry, getitem.
  rewrite (size_pos_lookup _ _ _ Hid), Hid, Hold. cbn [bind]. by rewrite Hsub.
Qed.

(** A stored tag string of which the tag is a substring: no operation. *)
Lemma pages_add_entry_substring (record : gmap string string) (old : string) :
  results !! id = Some record → record !! "tag" = Some old →
  str_in tag old = true →
  pages_add_entry results tag id = Ok ∅.
Proof.
  intros Hid Hold Hsub. unfold pages_add_entry, getitem.
  rewrite (size_pos_lookup _ _ _ Hid), Hid, Hold. cbn [bind]. by rewrite Hsub.
Qed.

(** In particular, a stored tag set that contains the tag: no operation. *)
Lemma pages_add_entry_member (record : gmap string string) (old : string) :
  results !! id = Some record → record !! "tag" = Some old →
  tag ∈ decode old →
  pages_add_entry results tag id = Ok ∅.
Proof.
  intros Hid Hold Hin. eapply pages_add_entry_substring; [done..|].
  by eapply elem_of_split_str_in.
Qed.

Lemma pages_remove_entry_no_record :
  results !! id = None → pages_remove_entry results tag id = Ok ∅.
Proof.
  intros Hid. unfold pages_remove_entry. rewrite Hid.
  by destruct (Nat.ltb 0 (size results)).
Qed.

Lemma pages_remove_entry_no_substring (record : gmap string string)
    (old : string) :
  results !! id = Some record → record !! "tag" = Some old →
  str_in tag old = false →
  pages_remove_entry results tag id = Ok ∅.
Proof.
  intros Hid Hold Hsub. unfold pages_remove_entry, getitem.
  rewrite (size_pos_lookup _ _ _ Hid), Hid, Hold. cbn [bind]. by rewrite Hsub.
Qed.

(** A stored tag set that contains the tag: an update with the first
    occurrence of the tag taken out. *)
Lemma pages_remove_entry_member (record : gmap string string) (old : string) :
  results !! id = Some record → record !! "tag" = Some old →
  tag ∈ decode old →
  ∃ before after,
    decode old = before ++ tag :: after ∧ (tag ∉ before) ∧
    pages_remove_entry results tag id
    = Ok (make_entry "url" id (encode (before ++ after))).
Proof.
  intros Hid Hold Hin.
  destruct (list_remove_elem_of _ _ Hin) as (before & after & Hsplit & Hnot & Hrm).
  exists before, after. split_and!; [done..|].
  unfold pages_remove_entry, getitem.
  rewrite (size_pos_lookup _ _ _ Hid), Hid, Hold. cbn [bind].
  rewrite (elem_of_split_str_in _ _ _ Hin).
  unfold decode in Hrm. by rewrite Hrm.
Qed.

(** The tag is a substring of the stored string without being one of its
    tags: [tags.remove(tag)] raises. *)
Lemma pages_remove_entry_raises (record : gmap string string) (old : string) :
  results !! id = Some record → record !! "tag" = Some old →
  str_in tag old = true → tag ∉ decode old →
  pages_remove_entry results tag id = Raise ValueError.
Proof.
  intros Hid Hold Hsub Hnot. unfold pages_remove_entry, getitem.
  rewrite (size_pos_lookup _ _ _ Hid), Hid, Hold. cbn [bind]. rewrite Hsub.
  unfold decode in Hnot. by rewrite (list_remove_not_elem_of _ _ Hnot).
Qed.

End Reconciler.

(** The remove path of [setTermsTag] raises for every term that has the
    tag, whatever the rest of the batch. *)
Lemma terms_remove_loop_raises (results : gmap string (gmap string string))
    (tag term : string) (terms : list string) (record : gmap string string)
    (old : string) (add_entries update_entries : list (gmap string string)) :
  results !! term = Some record → record !! "tag" = Some old →
  str_in tag old = true →
  raises (terms_remove_loop results tag (term :: terms) add_entries
            update_entries) = true.
Proof.
  intros Hid Hold Hsub. cbn [terms_remove_loop]. unfold getitem.
  rewrite (size_pos_lookup _ _ _ Hid), Hid, Hold. cbn [bind]. rewrite Hsub.
  by destruct (list_remove tag (split semicolon old)).
Qed.

(** ** One identifier against the store *)

Section Store.

Variable store : gmap string (gmap string string).
Variable id : string.

Lemma collect_no_tag :
  stored_tag store id = None →
  ∀ results term_field es_index es_doc_type,
    collect (connection store) term_field ["tag"] es_index es_doc_type [id]
      results = Ok results.
Proof.
  intros Htag results term_field es_index es_doc_type.
  cbn [collect connection search]. unfold find, stored_tag in *.
  destruct (store !! id) as [doc|]; [|done].
  rewrite decide_True; [done|].
  apply map_eq. intros k. rewrite lookup_empty.
  apply map_lookup_filter_None. right. intros v Hk Hin. simpl in Hin.
  apply list_elem_of_singleton in Hin as ->. congruence.
Qed.

Lemma collect_tag (old : string) :
  stored_tag store id = Some old →
  ∀ results term_field es_index es_doc_type,
    collect (connection store) term_field ["tag"] es_index es_doc_type [id]
      results = Ok (<[id := <["tag" := old]> ∅]> results).
Proof.
  intros Htag results term_field es_index es_doc_type.
  cbn [collect connection search]. unfold find, stored_tag in *.
  destruct (store !! id) as [doc|]; [|done].
  assert (filter (λ kv : string * string, kv.1 ∈ ["tag"]) doc !! "tag" = Some old)
    as Hfound.
  { apply map_lookup_filter_Some. split; [done|]. simpl. by left. }
  rewrite decide_False; last first.
  { intros Hempty. rewrite Hempty, lookup_empty in Hfound. done. }
  cbn [hit_fields fill_record]. rewrite lookup_fmap, Hfound. done.
Qed.

Lemma get_documents_one (localhost : ElasticSearch)
    (term_field : string) (es_index : option string) (es_doc_type : string) :
  get_documents localhost [id] term_field ["tag"] es_index es_doc_type
    (Some (connection store)) = Ok (record_of store id).
Proof.
  unfold get_documents, record_of. cbn [length Nat.ltb Nat.leb].
  destruct (stored_tag store id) as [old|] eqn:Htag.
  - by apply collect_tag.
  - by apply collect_no_tag.
Qed.

Lemma record_of_lookup (old : string) :
  stored_tag store id = Some old →
  record_of store id !! id = Some (<["tag" := old]> ∅).
Proof. intros Htag. unfold record_of. rewrite Htag. apply lookup_insert_eq. Qed.

Lemma stored_tag_upsert (key_field tag : string) :
  key_field ≠ "tag" →
  stored_tag (upsert key_field store (make_entry key_field id tag)) id
  = Some tag.
Proof.
  intros Hne. unfold upsert, stored_tag.
  rewrite make_entry_key by done. rewrite lookup_insert_eq.
  apply lookup_union_Some_l, make_entry_tag.
Qed.

Lemma upsert_other (key_field tag other : string) :
  key_field ≠ "tag" → other ≠ id →
  upsert key_field store (make_entry key_field id tag) !! other
  = store !! other.
Proof.
  intros Hne Hother. unfold upsert. rewrite make_entry_key by done.
  by apply lookup_insert_ne.
Qed.

(** [tagPages] on the one identifier, tag added. *)
Lemma tagPages_add_one (self : CrawlerModel) (tag : string) :
  tagPages self store [id] tag true
  = Ok match stored_tag store id with
       | None => upsert "url" store (make_entry "url" id tag)
       | Some old =>
           if str_in tag old then store
           else upsert "url" store (make_entry "url" id ((old +:+ ";") +:+ tag))
       end.
Proof.
  unfold tagPages, setPagesTag. rewrite get_documents_one. cbn [bind for_each].
  destruct (stored_tag store id) as [old|] eqn:Htag.
  - destruct (str_in tag old) eqn:Hsub.
    + erewrite pages_add_entry_substring;
        [| by apply record_of_lookup | apply lookup_insert_eq | done].
      cbn [bind]. rewrite decide_True by done. done.
    + erewrite pages_add_entry_appends;
        [| by apply record_of_lookup | apply lookup_insert_eq | done].
      cbn [bind]. rewrite decide_False by apply make_entry_not_empty. done.
  - rewrite pages_add_entry_no_record
      by (unfold record_of; rewrite Htag; apply lookup_empty).
    cbn [bind]. rewrite decide_False by apply make_entry_not_empty. done.
Qed.

(** [tagPages] on the one identifier, tag removed. *)
Lemma tagPages_remove_one (self : CrawlerModel) (tag : string) :
  tagPages self store [id] tag false
  = match stored_tag store id with
    | None => Ok store
    | Some old =>
        if str_in tag old then
          let! tags := list_remove tag (decode old) in
          Ok (upsert "url" store (make_entry "url" id (encode tags)))
        else Ok store
    end.
Proof.
  unfold tagPages, setPagesTag. rewrite get_documents_one. cbn [bind for_each].
  destruct (stored_tag store id) as [old|] eqn:Htag.
  - destruct (str_in tag old) eqn:Hsub.
    + unfold pages_remove_entry, getitem.
      rewrite (size_pos_lookup _ _ _ (record_of_lookup _ Htag)).
      rewrite (record_of_lookup _ Htag), lookup_insert_eq. cbn [bind].
      rewrite Hsub. unfold decode.
      destruct (list_remove tag (split semicolon old)) as [tags|e]; [|done].
      cbn [bind]. rewrite decide_False by apply make_entry_not_empty. done.
    + erewrite pages_remove_entry_no_substring;
        [| by apply record_of_lookup | apply lookup_insert_eq | done].
      cbn [bind]. rewrite decide_True by done. done.
  - rewrite pages_remove_entry_no_record
      by (unfold record_of; rewrite Htag; apply lookup_empty).
    cbn [bind]. rewrite decide_True by done. done.
Qed.

(** [tagTerms] on the one identifier, tag added. *)
Lemma tagTerms_add_one (self : CrawlerModel) (tag : string) :
  tagTerms self store [id] tag true
  = Ok match stored_tag store id with
       | None => upsert "term" store (make_entry "term" id tag)
       | Some old =>
           if str_in tag old then store
           else upsert "term" store
                  (make_entry "term" id ((old +:+ ";") +:+ tag))
       end.
Proof.
  unfold tagTerms, setTermsTag. rewrite get_documents_one.
  cbn [bind terms_add_loop].
  destruct (stored_tag store id) as [old|] eqn:Htag.
  - unfold getitem.
    rewrite (size_pos_lookup _ _ _ (record_of_lookup _ Htag)).
    rewrite (record_of_lookup _ Htag), lookup_insert_eq. cbn [bind].
    by destruct (str_in tag old).
  - unfold record_of. rewrite Htag, lookup_empty.
    by destruct (Nat.ltb 0 (size _)).
Qed.

End Store.

(** Tagging a second time changes nothing: after the first call the stored
    string ends in the tag. *)
Lemma tagPages_add_twice (self : CrawlerModel)
    (store : gmap string (gmap string string)) (id tag : string) :
  ∃ store1,
    tagPages self store [id] tag true = Ok store1 ∧
    tagPages self store1 [id] tag true = Ok store1.
Proof.
  eexists. split; [apply tagPages_add_one|].
  rewrite tagPages_add_one.
  destruct (stored_tag store id) as [old|] eqn:Htag.
  - destruct (str_in tag old) eqn:Hsub.
    + by rewrite Htag, Hsub.
    + rewrite stored_tag_upsert by done. by rewrite str_in_app_r.
  - rewrite stored_tag_upsert by done. by rewrite str_in_refl.
Qed.

Lemma tagTerms_add_twice (self : CrawlerModel)
    (store : gmap string (gmap string string)) (id tag : string) :
  ∃ store1,
    tagTerms self store [id] tag true = Ok store1 ∧
    tagTerms self store1 [id] tag true = Ok store1.
Proof.
  eexists. split; [apply tagTerms_add_one|].
  rewrite tagTerms_add_one.
  destruct (stored_tag store id) as [old|] eqn:Htag.
  - destruct (str_in tag old) eqn:Hsub.
    + by rewrite Htag, Hsub.
    + rewrite stored_tag_upsert by done. by rewrite str_in_app_r.
  - rewrite stored_tag_upsert by done. by rewrite str_in_refl.
Qed.

(** Untagging a term that has the tag raises [TypeError], and untagging a
    page with a tag that is a substring of its stored tag raises
    [ValueError]. *)
Example untag_term_raises :
  let store : gmap string (gmap string string) :=
    {[ "ebola" := <["tag" := "Positive"]> {[ "term" := "ebola" ]} ]} in
  setTermsTag (connection store) (connect init store) ["ebola"] "Positive" false
  = Raise TypeError.
Proof. vm_compute. reflexivity. Qed.

Example untag_page_substring_raises :
  let store : gmap string (gmap string string) :=
    {[ "A" := <["tag" := "Positive"]> {[ "url" := "A" ]} ]} in
  setPagesTag (connection store) (connect init store) ["A"] "Pos" false
  = Raise ValueError.
Proof. vm_compute. reflexivity. Qed.

(** ** The tag set codec *)

(** Decoding an encoded list gives the list back, when the list is not
    empty and no tag holds the delimiter. *)
Lemma decode_encode_nonempty (tags : list string) :
  tags ≠ [] → Forall (λ tag, has_char semicolon tag = false) tags →
  decode (encode tags) = tags.
Proof. apply split_join. Qed.

(** Encoding a decoded string gives the string back. *)
Lemma encode_decode (raw : string) : encode (decode raw) = raw.
Proof. apply join_split. Qed.

Lemma decode_append_tag (old tag : string) :
  has_char semicolon tag = false →
  decode ((old +:+ ";") +:+ tag) = decode old ++ [tag].
Proof.
  intros Htag. unfold decode.
  replace ((old +:+ ";") +:+ tag) with (old +:+ String semicolon tag).
  - by rewrite split_app_sep, (split_no_sep _ _ Htag).
  - induction old as [|a old IH]; [done|].
    rewrite !append_cons. by rewrite IH.
Qed.

(** ** Claims *)

(** C1 (the code departs from the claim). An id whose existing tag set
    lacks the tag should yield an update with the old set plus the tag.
    The add paths of [setPagesTag] and [setTermsTag] test [tag not in old]
    on the stored string, a substring test: with "Positive" stored for "A",
    the tag "Pos" is not in the tag set, and neither path emits an entry
    for it. *)
Theorem add_tag_that_is_substring :
  let store : gmap string (gmap string string) :=
    {[ "A" := <["tag" := "Positive"]> {[ "url" := "A" ]} ]} in
  ("Pos" ∉ decode "Positive") ∧
  setPagesTag (connection store) (connect init store) ["A"] "Pos" true
  = Ok [update_document [] "url" None "page"] ∧
  setTermsTag (connection store) (connect init store) ["A"] "Pos" true
  = Ok [].
Proof.
  split_and!.
  - vm_compute. intros Hin. apply list_elem_of_singleton in Hin. discriminate.
  - vm_compute. reflexivity.
  - vm_compute. reflexivity.
Qed.

(** C2 (counterexample). Tagging and then untagging does not return the
    stored tag set to its prior state when the id had the tag already:
    with "Relevant" stored for "A", the tagging changes nothing and the
    untagging takes the tag away. *)
Lemma untag_after_tag_drops_prior_tag :
  let store : gmap string (gmap string string) :=
    {[ "A" := <["tag" := "Relevant"]> {[ "url" := "A" ]} ]} in
  ∃ store1 store2,
    tagPages init store ["A"] "Relevant" true = Ok store1 ∧
    tagPages init store1 ["A"] "Relevant" false = Ok store2 ∧
    stored_tag store "A" = Some "Relevant" ∧
    stored_tag store2 "A" = Some "".
Proof.
  eexists _, _. split_and!; vm_compute; reflexivity.
Qed.

(** C2 (as amended). For pages: when the stored tag string [old] of an id
    does not contain the tag as a substring (and the tag holds no
    delimiter), tagging and then untagging writes [old] back and leaves
    every other document as it was, the untagging being one update for
    that id.  The remove path emits, for an id whose stored tag list
    contains the tag, an update with the list less the first occurrence
    of the tag, and nothing for an id without a record or whose stored
    string does not contain the tag as a substring. *)
Theorem untag_after_tag_restores (self : CrawlerModel)
    (store : gmap string (gmap string string)) (id tag old : string) :
  stored_tag store id = Some old →
  has_char semicolon tag = false →
  str_in tag old = false →
  (∃ store1 store2,
     tagPages self store [id] tag true = Ok store1 ∧
     setPagesTag (connection store1) (connect self store1) [id] tag false
     = Ok [update_document [make_entry "url" id old] "url"
             (_activeCrawlerIndex self) "page"] ∧
     tagPages self store1 [id] tag false = Ok store2 ∧
     stored_tag store2 id = Some old ∧
     ∀ other, other ≠ id → store2 !! other = store !! other) ∧
  (∀ (results : gmap string (gmap string string)) (page : string),
     (∀ record stored,
        results !! page = Some record → record !! "tag" = Some stored →
        tag ∈ decode stored →
        ∃ before after,
          decode stored = before ++ tag :: after ∧ (tag ∉ before) ∧
          pages_remove_entry results tag page
          = Ok (make_entry "url" page (encode (before ++ after)))) ∧
     (results !! page = None → pages_remove_entry results tag page = Ok ∅) ∧
     (∀ record stored,
        results !! page = Some record → record !! "tag" = Some stored →
        str_in tag stored = false →
        pages_remove_entry results tag page = Ok ∅)).
Proof.
  intros Hold Htag Hsub.
  assert (tag ∉ decode old) as Hnot.
  { intros Hin. apply elem_of_split_str_in in Hin. congruence. }
  assert (list_remove tag (decode ((old +:+ ";") +:+ tag)) = Ok (decode old))
    as Hremove.
  { rewrite decode_append_tag by done. by apply list_remove_app_last. }
  split.
  - pose proof (stored_tag_upsert store id "url" ((old +:+ ";") +:+ tag)
                  ltac:(done)) as Hnew.
    eexists _, (upsert "url" _ (make_entry "url" id old)). split_and!.
    + by rewrite tagPages_add_one, Hold, Hsub.
    + unfold setPagesTag. cbn [connect es _activeCrawlerIndex].
      rewrite get_documents_one. cbn [bind for_each].
      unfold pages_remove_entry, getitem.
      rewrite (size_pos_lookup _ _ _ (record_of_lookup _ _ _ Hnew)).
      rewrite (record_of_lookup _ _ _ Hnew), lookup_insert_eq. cbn [bind].
      rewrite str_in_app_r. fold (decode ((old +:+ ";") +:+ tag)).
      rewrite Hremove. cbn [bind].
      rewrite decide_False by apply make_entry_not_empty.
      fold (encode (decode old)). by rewrite encode_decode.
    + rewrite tagPages_remove_one, Hnew, str_in_app_r, Hremove. cbn [bind].
      by rewrite encode_decode.
    + by apply stored_tag_upsert.
    + intros other Hother. by rewrite !upsert_other.
  - intros results page. split_and!.
    + intros record stored Hpage Hstored Hin.
      by eapply pages_remove_entry_member.
    + apply pages_remove_entry_no_record.
    + intros record stored Hpage Hstored Hno.
      by eapply pages_remove_entry_no_substring.
Qed.

Lemma untag_after_tag_restores_witness :
  let store : gmap string (gmap string string) :=
    {[ "A" := <["tag" := "Negative"]> {[ "url" := "A" ]} ]} in
  stored_tag store "A" = Some "Negative" ∧
  has_char semicolon "Positive" = false ∧
  str_in "Positive" "Negative" = false ∧
  ∃ store1 store2,
    tagPages init store ["A"] "Positive" true = Ok store1 ∧
    setPagesTag (connection store1) (connect init store1) ["A"] "Positive" false
    = Ok [update_document [make_entry "url" "A" "Negative"] "url" None "page"] ∧
    tagPages init store1 ["A"] "Positive" false = Ok store2 ∧
    stored_tag store2 "A" = Some "Negative" ∧
    ∀ other, other ≠ "A" → store2 !! other = store !! other.
Proof.
  intros store. split_and!; [reflexivity..|].
  apply (untag_after_tag_restores init store "A" "Positive" "Negative");
    reflexivity.
Defined.

Lemma size_0_lookup {V : Type} (m : gmap string V) (k : string) :
  Nat.ltb 0 (size m) = false → m !! k = None.
Proof.
  intros Hsize. apply Nat.ltb_ge in Hsize.
  assert (size m = 0) as Hzero%map_size_empty_inv by lia.
  subst. apply lookup_empty.
Qed.

(** The remove loop of [setTermsTag] never appends: it returns its two
    lists as they were, or raises. *)
Lemma terms_remove_loop_keeps (results : gmap string (gmap string string))
    (tag : string) (terms : list string) :
  ∀ add_entries update_entries adds updates,
    terms_remove_loop results tag terms add_entries update_entries
    = Ok (adds, updates) →
    adds = add_entries ∧ updates = update_entries.
Proof.
  induction terms as [|term terms IH];
    intros add_entries update_entries adds updates.
  - cbn. by intros [= <- <-].
  - cbn [terms_remove_loop].
    destruct (Nat.ltb 0 (size results)); [|apply IH].
    destruct (results !! term) as [record|]; [|apply IH].
    destruct (getitem record "tag") as [old_tag|e]; [|done]. cbn [bind].
    destruct (str_in tag old_tag); [|apply IH].
    by destruct (list_remove tag (split semicolon old_tag)).
Qed.

(** The entries that the loop of [setPagesTag] appends are those of the
    pages, in the order of the batch. *)
Lemma for_each_omap (body : string → result (gmap string string))
    (g : string → option (gmap string string)) (pages : list string) :
  (∀ page entry,
     body page = Ok entry →
     g page = if decide (entry = ∅) then None else Some entry) →
  ∀ entries out,
    for_each body pages entries = Ok out → out = entries ++ omap g pages.
Proof.
  intros Hbody. induction pages as [|page pages IH]; intros entries out.
  - cbn. intros [= <-]. by rewrite app_nil_r.
  - cbn [for_each].
    change (omap g (page :: pages))
      with (match g page with
            | Some entry => entry :: omap g pages
            | None => omap g pages
            end).
    destruct (body page) as [entry|e] eqn:Hpage; [|done].
    cbn [bind]. rewrite (Hbody page entry Hpage). intros Hrest.
    apply IH in Hrest as ->.
    destruct (decide (entry = ∅)); [done|]. by rewrite <- app_assoc.
Qed.

Lemma pages_add_entry_tagged (results : gmap string (gmap string string))
    (tag page : string) (entry : gmap string string) :
  pages_add_entry results tag page = Ok entry →
  tagged_entry "url" results tag page
  = if decide (entry = ∅) then None else Some entry.
Proof.
  unfold pages_add_entry, tagged_entry, created_entry, updated_entry.
  destruct (Nat.ltb 0 (size results)) eqn:Hsize.
  - destruct (results !! page) as [record|].
    + unfold getitem. destruct (record !! "tag") as [old|]; [|done].
      cbn [bind]. destruct (str_in tag old); cbn [negb]; intros [= <-].
      * done.
      * by rewrite decide_False by apply make_entry_not_empty.
    + intros [= <-]. by rewrite decide_False by apply make_entry_not_empty.
  - rewrite (size_0_lookup _ _ Hsize). intros [= <-].
    by rewrite decide_False by apply make_entry_not_empty.
Qed.

Lemma pages_remove_entry_untagged (results : gmap string (gmap string string))
    (tag page : string) (entry : gmap string string) :
  pages_remove_entry results tag page = Ok entry →
  untagged_entry "url" results tag page
  = if decide (entry = ∅) then None else Some entry.
Proof.
  unfold pages_remove_entry, untagged_entry.
  destruct (Nat.ltb 0 (size results)) eqn:Hsize.
  - destruct (results !! page) as [record|]; [|by intros [= <-]].
    unfold getitem. destruct (record !! "tag") as [old|]; [|done].
    cbn [bind]. destruct (str_in tag old); [|by intros [= <-]].
    destruct (list_remove tag (split semicolon old)) as [tags|e]; [|done].
    cbn [bind]. intros [= <-].
    by rewrite decide_False by apply make_entry_not_empty.
  - rewrite (size_0_lookup _ _ Hsize). by intros [= <-].
Qed.

(** The add loop of [setTermsTag] appends the creates to one list and the
    updates to the other, each in the order of the batch. *)
Lemma terms_add_loop_omap (results : gmap string (gmap string string))
    (tag : string) (terms : list string) :
  ∀ add_entries update_entries adds updates,
    terms_add_loop results tag terms add_entries update_entries
    = Ok (adds, updates) →
    adds = add_entries ++ omap (created_entry "term" results tag) terms ∧
    updates = update_entries ++ omap (updated_entry "term" results tag) terms.
Proof.
  induction terms as [|term terms IH];
    intros add_entries update_entries adds updates.
  - cbn. intros [= <- <-]. by rewrite !app_nil_r.
  - cbn [terms_add_loop].
    change (omap (created_entry "term" results tag) (term :: terms))
      with (match created_entry "term" results tag term with
            | Some entry => entry :: omap (created_entry "term" results tag) terms
            | None => omap (created_entry "term" results tag) terms
            end).
    change (omap (updated_entry "term" results tag) (term :: terms))
      with (match updated_entry "term" results tag term with
            | Some entry => entry :: omap (updated_entry "term" results tag) terms
            | None => omap (updated_entry "term" results tag) terms
            end).
    unfold created_entry at 1, updated_entry at 1.
    destruct (Nat.ltb 0 (size results)) eqn:Hsize.
    + destruct (results !! term) as [record|].
      * unfold getitem. destruct (record !! "tag") as [old|]; [|done].
        cbn [bind]. destruct (str_in tag old); cbn [negb]; intros Hrest;
          apply IH in Hrest as [-> ->]; by rewrite <- ?app_assoc.
      * intros Hrest. apply IH in Hrest as [-> ->]. by rewrite <- ?app_assoc.
    + rewrite (size_0_lookup _ _ Hsize). intros Hrest.
      apply IH in Hrest as [-> ->]. by rewrite <- ?app_assoc.
Qed.

(** C3 (counterexample). [setPagesTag] does not submit creates and updates
    as two calls: for pages "A" (no record) and "B" (tagged "Negative")
    the create and the update go out together, in one [update_document]
    call. *)
Lemma setPagesTag_one_call :
  let store : gmap string (gmap string string) :=
    {[ "B" := <["tag" := "Negative"]> {[ "url" := "B" ]} ]} in
  setPagesTag (connection store) (connect init store) ["A"; "B"] "Positive" true
  = Ok [update_document
          [make_entry "url" "A" "Positive";
           make_entry "url" "B" "Negative;Positive"] "url" None "page"] ∧
  ¬ ∃ first second,
      setPagesTag (connection store) (connect init store) ["A"; "B"]
        "Positive" true = Ok [first; second].
Proof.
  intros store.
  assert (setPagesTag (connection store) (connect init store) ["A"; "B"]
            "Positive" true
          = Ok [update_document
                  [make_entry "url" "A" "Positive";
                   make_entry "url" "B" "Negative;Positive"] "url" None "page"])
    as Hcalls by (vm_compute; reflexivity).
  split; [exact Hcalls|].
  intros (first & second & Htwo). rewrite Hcalls in Htwo. discriminate.
Qed.

(** C3 (as amended). [setTermsTag] submits the creates in one
    [add_document] call and then the updates in one [update_document]
    call, each only when it has entries; [setPagesTag] submits all its
    entries, creates and updates in the order of the batch, in a single
    [update_document] call.  The entries are those that the ids of the
    batch call for given the records fetched, in the order of the batch;
    removing a tag, [setPagesTag] submits its updates in the same single
    call and [setTermsTag], when it returns, submits nothing.  For ids "A"
    (no record) and "B" (tagged "Negative") and the tag "Positive", the
    entries are "A" with "Positive" and "B" with "Negative;Positive". *)
Theorem tagging_gateway_calls (localhost : ElasticSearch) (self : CrawlerModel)
    (ids : list string) (tag : string) (add : bool) :
  (∀ results calls,
     get_documents localhost ids "url" ["tag"] (_activeCrawlerIndex self)
       "page" (es self) = Ok results →
     setPagesTag localhost self ids tag add = Ok calls →
     calls
     = [update_document
          (omap (if add then tagged_entry "url" results tag
                 else untagged_entry "url" results tag) ids)
          "url" (_activeCrawlerIndex self) "page"]) ∧
  (∀ results calls,
     get_documents localhost ids "term" ["tag"] (_activeCrawlerIndex self)
       "terms" (es self) = Ok results →
     setTermsTag localhost self ids tag add = Ok calls →
     let creates :=
       if add then omap (created_entry "term" results tag) ids else [] in
     let updates :=
       if add then omap (updated_entry "term" results tag) ids else [] in
     calls
     = (if decide (creates = []) then []
        else [add_document creates (_activeCrawlerIndex self) "terms"])
       ++
       (if decide (updates = []) then []
        else [update_document updates "term"
                (_activeCrawlerIndex self) "terms"])) ∧
  (let store : gmap string (gmap string string) :=
     {[ "B" := <["tag" := "Negative"]> {[ "url" := "B" ]} ]} in
   setPagesTag (connection store) (connect self store) ["A"; "B"] "Positive" true
   = Ok [update_document
           [make_entry "url" "A" "Positive";
            make_entry "url" "B" "Negative;Positive"] "url"
           (_activeCrawlerIndex self) "page"] ∧
   setTermsTag (connection store) (connect self store) ["A"; "B"] "Positive" true
   = Ok [add_document [make_entry "term" "A" "Positive"]
           (_activeCrawlerIndex self) "terms";
         update_document [make_entry "term" "B" "Negative;Positive"] "term"
           (_activeCrawlerIndex self) "terms"]).
Proof.
  split_and!.
  - intros results calls Hresults. unfold setPagesTag. rewrite Hresults.
    cbn [bind].
    destruct (if add then _ else _) as [entries|e] eqn:Hloop; [|done].
    cbn [bind]. intros [= <-]. do 2 f_equal. destruct add.
    + by apply (for_each_omap _ _ _ (pages_add_entry_tagged results tag))
        in Hloop.
    + by apply (for_each_omap _ _ _ (pages_remove_entry_untagged results tag))
        in Hloop.
  - intros results calls Hresults. unfold setTermsTag. rewrite Hresults.
    cbn [bind].
    destruct (if add then _ else _) as [[adds updates]|e] eqn:Hloop; [|done].
    cbn [bind]. intros [= <-]. destruct add.
    + apply terms_add_loop_omap in Hloop as [-> ->]. cbn [app].
      by destruct (omap (created_entry _ _ _) ids),
                  (omap (updated_entry _ _ _) ids).
    + apply terms_remove_loop_keeps in Hloop as [-> ->]. done.
  - destruct self as [c i f p]. split; vm_compute; reflexivity.
Qed.

Lemma tagging_gateway_calls_witness :
  let store : gmap string (gmap string string) :=
    {[ "B" := <["tag" := "Negative"]> {[ "url" := "B" ]} ]} in
  let results : gmap string (gmap string string) :=
    {[ "B" := {[ "tag" := "Negative" ]} ]} in
  let calls :=
    [add_document [make_entry "term" "A" "Positive"] None "terms";
     update_document [make_entry "term" "B" "Negative;Positive"] "term" None
       "terms"] in
  get_documents (connection store) ["A"; "B"] "term" ["tag"] None "terms"
    (Some (connection store)) = Ok results ∧
  setTermsTag (connection store) (connect init store) ["A"; "B"] "Positive" true
  = Ok calls ∧
  calls
  = (if decide (omap (created_entry "term" results "Positive") ["A"; "B"] = [])
     then []
     else [add_document
             (omap (created_entry "term" results "Positive") ["A"; "B"])
             None "terms"])
    ++
    (if decide (omap (updated_entry "term" results "Positive") ["A"; "B"] = [])
     then []
     else [update_document
             (omap (updated_entry "term" results "Positive") ["A"; "B"])
             "term" None "terms"]).
Proof.
  intros store results calls.
  assert (get_documents (connection store) ["A"; "B"] "term" ["tag"] None
            "terms" (Some (connection store)) = Ok results) as Hresults
    by (vm_compute; reflexivity).
  assert (setTermsTag (connection store) (connect init store) ["A"; "B"]
            "Positive" true = Ok calls) as Hcalls by (vm_compute; reflexivity).
  split_and!; [exact Hresults | exact Hcalls |].
  exact (proj1 (proj2 (tagging_gateway_calls (connection store)
                         (connect init store) ["A"; "B"] "Positive" true))
           results calls Hresults Hcalls).
Defined.

(** ** The page summary *)

(** The three counters are the numbers of documents of the three buckets. *)
Lemma tally_counts (results : list (gmap string value))
    (relevant irrelevant neutral : nat) :
  tally results relevant irrelevant neutral
  = {| Relevant := relevant + length (List.filter counted_relevant results);
       Irrelevant := irrelevant + length (List.filter counted_irrelevant results);
       Neutral := neutral + length (List.filter counted_neutral results) |}.
Proof.
  revert relevant irrelevant neutral.
  induction results as [|res results IH]; intros relevant irrelevant neutral.
  - cbn. by rewrite !Nat.add_0_r.
  - cbn [tally List.filter].
    unfold counted_neutral, counted_irrelevant, counted_relevant, getitem.
    destruct (res !! "tag") as [tags|]; [destruct (contains "Relevant" tags);
      [|destruct (contains "Irrelevant" tags)]|];
      rewrite IH; cbn [negb andb length]; f_equal;
      unfold counted_neutral, counted_irrelevant, counted_relevant; lia.
Qed.

(** Every document is counted, and counted once. *)
Lemma tally_total (results : list (gmap string value)) :
  Relevant (tally results 0 0 0) + Irrelevant (tally results 0 0 0)
  + Neutral (tally results 0 0 0) = length results.
Proof.
  rewrite tally_counts. cbn [Relevant Irrelevant Neutral].
  induction results as [|res results IH]; [done|].
  cbn [List.filter length]. unfold counted_neutral in *.
  destruct (counted_relevant res) eqn:Hr, (counted_irrelevant res) eqn:Hi;
    cbn [negb andb length]; try lia.
  unfold counted_relevant, counted_irrelevant in Hr, Hi.
  destruct (res !! "tag"); [|done]. by rewrite Hr in Hi.
Qed.

(** A document whose stored tag string holds the tag [Relevant] is counted
    as relevant. *)
Lemma tally_relevant_member (res : gmap string value) (stored : string) :
  res !! "tag" = Some (Str stored) → "Relevant" ∈ decode stored →
  counted_relevant res = true.
Proof.
  intros Hres Hin. unfold counted_relevant. rewrite Hres.
  by eapply elem_of_split_str_in.
Qed.

(** The scenario of the specification: pages A (no tags), B ([Relevant])
    and C ([Irrelevant;Relevant]). *)
Example tally_scenario :
  tally [ {[ "url" := Str "A" ]};
          <["tag" := Str "Relevant"]> {[ "url" := Str "B" ]};
          <["tag" := Str "Irrelevant;Relevant"]> {[ "url" := Str "C" ]} ] 0 0 0
  = {| Relevant := 2; Irrelevant := 0; Neutral := 1 |}.
Proof. vm_compute. reflexivity. Qed.

(** C4 (the code departs from the claim). A document is to be counted as
    relevant when [Relevant] is in its tag set, else as irrelevant when
    [Irrelevant] is, else as neutral.  The loop tests
    ['Relevant' in res['tag']] on the field as the backend returns it.  On
    a stored string that is the substring test: a page whose one tag is
    "NotRelevant" has neither label in its tag set and is counted as
    relevant.  Were the field the list of stored values, the page C of the
    scenario, stored as "Irrelevant;Relevant", would be counted as
    neutral. *)
Theorem tally_substring_of_other_tag :
  decode "NotRelevant" = ["NotRelevant"] ∧
  tally [ <["tag" := Str "NotRelevant"]> {[ "url" := Str "P" ]} ] 0 0 0
  = {| Relevant := 1; Irrelevant := 0; Neutral := 0 |} ∧
  tally [ <["tag" := List ["Irrelevant;Relevant"]]> {[ "url" := Str "C" ]} ] 0 0 0
  = {| Relevant := 0; Irrelevant := 0; Neutral := 1 |}.
Proof. split_and!; vm_compute; reflexivity. Qed.

(** The result of [getPagesSummarySeedCrawler] depends neither on the flag
    nor on the filter of the session. *)
Lemma getPagesSummarySeedCrawler_flag_and_filter
    (timestamp argument : Type) (float : argument → result timestamp)
    (origin : timestamp)
    (range : string → timestamp → timestamp → list string → bool →
             option string → option ElasticSearch → list (gmap string value))
    (now : timestamp) (self : CrawlerModel)
    (opt_ts1 opt_ts2 : option argument) (flag flag' : bool)
    (terms : option string) :
  getPagesSummarySeedCrawler timestamp argument float origin range now self
    opt_ts1 opt_ts2 flag
  = getPagesSummarySeedCrawler timestamp argument float origin range now
      (applyFilter self terms) opt_ts1 opt_ts2 flag'.
Proof.
  unfold getPagesSummarySeedCrawler.
  assert (es (applyFilter self terms) = es self ∧
          _activeCrawlerIndex (applyFilter self terms) = _activeCrawlerIndex self)
    as [-> ->] by (by destruct terms as [[|? ?]|]).
  by destruct flag, flag'.
Qed.

(** C5 (the code departs from the claim). The summary is to be restricted
    by the active filter when [applyFilter] holds.  Both branches of
    [getPagesSummarySeedCrawler] issue the same [range] call, to which the
    filter is not passed: with the filter "ebola" set and two relevant
    pages of which one matches it, the call with the flag set counts both,
    where the summary restricted by the filter counts one. *)
Theorem summary_not_restricted_by_filter :
  let pages :=
    [ {| page_url := "A"; page_text := "ebola outbreak"; page_retrieved := 10;
         page_tag := Some "Relevant" |};
      {| page_url := "B"; page_text := "football scores"; page_retrieved := 20;
         page_tag := Some "Relevant" |} ] in
  let self := applyFilter init (Some "ebola") in
  _filter self = Some "ebola" ∧
  getPagesSummarySeedCrawler Z Empty_set (λ ts, match ts with end) 0%Z
    (range_over pages) 100%Z self None None true
  = Ok {| Relevant := 2; Irrelevant := 0; Neutral := 0 |} ∧
  pageSummary pages self 0 100 true
  = {| Relevant := 1; Irrelevant := 0; Neutral := 0 |}.
Proof. split_and!; vm_compute; reflexivity. Qed.

(** C6 (the code departs from the claim). Decoding the empty string is to
    give the empty set, so that the empty set survives the round trip.
    The source decodes with [split(';')], which gives one empty tag for the
    empty string: the empty list encodes to the empty string and decodes
    to [['']]. *)
Theorem decode_encode_empty :
  encode [] = "" ∧
  decode (encode []) = [""] ∧
  decode_field (Some "") = [""] ∧
  decode_field None = [].
Proof. split_and!; reflexivity. Qed.

(** ** The session filter *)

(** C9. [applyFilter] with a text that is not empty sets the filter to the
    text; with the empty text or none it leaves the session, and so the
    filter set before, as it was; in each case no other field changes. *)
Theorem applyFilter_sets_or_keeps (self : CrawlerModel) (a : ascii)
    (text : string) :
  _filter (applyFilter self (Some (String a text))) = Some (String a text) ∧
  applyFilter self (Some "") = self ∧
  applyFilter self None = self ∧
  ∀ terms,
    es (applyFilter self terms) = es self ∧
    _activeCrawlerIndex (applyFilter self terms) = _activeCrawlerIndex self ∧
    _pagesCap (applyFilter self terms) = _pagesCap self.
Proof.
  split_and!; [done..|]. by intros [[|? ?]|].
Qed.

(** ** The empty batch *)

(** C10. [get_documents] raises for an empty sequence of identifiers, its
    [results] being unbound, and so do [setPagesTag] and [setTermsTag],
    which call it first: no call reaches the gateway. *)
Theorem empty_batch_raises (localhost : ElasticSearch) (self : CrawlerModel)
    (term_field : string) (fields : list string) (es_index : option string)
    (es_doc_type : string) (connection : option ElasticSearch) (tag : string)
    (applyTagFlag : bool) :
  get_documents localhost [] term_field fields es_index es_doc_type connection
  = Raise UnboundLocalError ∧
  setPagesTag localhost self [] tag applyTagFlag = Raise UnboundLocalError ∧
  setTermsTag localhost self [] tag applyTagFlag = Raise UnboundLocalError.
Proof. split_and!; reflexivity. Qed.

(** ** The projection *)

Section ProjectionProofs.

Variable coord : Type.


Variable getTermStatistics :
  list string → option string → string → list (list coord) * list string.
Variable explained_variance_ratio : option nat → list (list coord) → list coord.
Variable transform : option nat → list (list coord) → list (list coord).


End ProjectionProofs.



(** ** The terms summary *)

Lemma dict_comp_lookup {V : Type} (f : string → V) (keys : list string)
    (key : string) :
  key ∈ keys → dict_comp f keys !! key = Some (f key).
Proof.
  unfold dict_comp. generalize (∅ : gmap string V).
  induction keys as [|k keys IH] using rev_ind; intros d Hin.
  - by apply elem_of_nil in Hin.
  - rewrite foldl_app. cbn [foldl].
    destruct (decide (k = key)) as [->|Hne]; [apply lookup_insert_eq|].
    rewrite lookup_insert_ne by done. apply IH.
    apply elem_of_app in Hin as [Hin|Hin%list_elem_of_singleton]; [done|].
    congruence.
Qed.

(** The rows of a table of positive frequencies that is zero on the terms
    at hand: one row per term, in order, each with positive frequency
    zero. *)
Lemma term_rows_zero_baseline (tags : gmap string (gmap string string))
    (pos_freq neg_freq : gmap string Z) (top_terms : list string) :
  (∀ term, term ∈ top_terms → pos_freq !! term = Some 0%Z) →
  ∀ terms rows,
    term_rows tags pos_freq neg_freq top_terms terms = Ok rows →
    ∃ rows',
      rows = terms ++ rows' ∧
      map (λ row : term_row, row.1.1.1) rows' = top_terms ∧
      Forall (λ row : term_row, row.1.1.2 = 0%Z) rows'.
Proof.
  induction top_terms as [|term top_terms IH]; intros Hzero terms rows.
  - cbn. intros [= <-]. exists []. by rewrite app_nil_r.
  - cbn [term_rows]. unfold getitem at 1. rewrite (Hzero term) by left.
    cbn [bind].
    destruct (getitem neg_freq term) as [neg|e]; [|done]. cbn [bind].
    destruct (match tags !! term with Some _ => _ | None => _ end)
      as [entry3|e]; [|done].
    cbn [bind]. intros Hrows.
    apply IH in Hrows as (rows' & -> & Hterms & Hpos);
      [|intros; apply Hzero; by right].
    exists ((term, 0%Z, neg, entry3) :: rows'). split_and!.
    + by rewrite <- app_assoc.
    + cbn. by rewrite Hterms.
    + by constructor.
Qed.

Section TermsSummaryProofs.

Variable localhost : ElasticSearch.
Variable term_search :
  string → list string → option string → string → option ElasticSearch →
  list string.
Variable es_search :
  ElasticSearch → request → option string → string → option Z → list hit.
Variable getTopTerms : list string → nat → list string.
Variable getTtf : list string → gmap string Z.

(** With fewer than 2 positive urls, the summary is the empty list. *)
Lemma getTermsSummarySeedCrawler_few_urls (self : CrawlerModel)
    (opt_maxNumberOfTerms : nat) (pos_urls : list string) :
  positive_urls localhost term_search es_search self = Ok pos_urls →
  (length pos_urls < 2)%nat →
  getTermsSummarySeedCrawler localhost term_search es_search getTopTerms getTtf
    self opt_maxNumberOfTerms = Ok [].
Proof.
  unfold positive_urls, getTermsSummarySeedCrawler. intros -> Hfew.
  cbn [bind]. destruct (Nat.ltb_spec 1 (length pos_urls)); [lia | done].
Qed.

(** After the fallback to all urls, the ranking is over those urls and
    every positive frequency is zero. *)
Lemma getTermsSummarySeedCrawler_zero_baseline (self : CrawlerModel)
    (opt_maxNumberOfTerms : nat) (all : list string) :
  term_search "tag" ["Relevant"] (_activeCrawlerIndex self) "page" (es self)
  = [] →
  get_all_ids localhost es_search (_activeCrawlerIndex self) "page" (es self)
  = Ok all →
  ∀ rows,
    getTermsSummarySeedCrawler localhost term_search es_search getTopTerms
      getTtf self opt_maxNumberOfTerms = Ok rows →
    rows = [] ∨
    map (λ row : term_row, row.1.1.1) rows
    = getTopTerms all opt_maxNumberOfTerms ∧
    Forall (λ row : term_row, row.1.1.2 = 0%Z) rows.
Proof.
  intros Hnone Hall rows. unfold getTermsSummarySeedCrawler.
  rewrite Hnone. cbn [length Nat.eqb negb]. rewrite Hall. cbn [bind].
  destruct (Nat.ltb 1 (length all)); [|intros [= <-]; by left].
  destruct (get_documents _ _ _ _ _ _ _) as [tags|e]; [|done].
  cbn [bind]. intros Hrows. right.
  apply term_rows_zero_baseline in Hrows as (rows' & -> & Hterms & Hpos).
  - done.
  - intros term Hterm. by rewrite dict_comp_lookup.
Qed.

(** An exception of [get_all_ids] in the fallback is not handled. *)
Lemma getTermsSummarySeedCrawler_fallback_raises (self : CrawlerModel)
    (opt_maxNumberOfTerms : nat) (e : exn) :
  term_search "tag" ["Relevant"] (_activeCrawlerIndex self) "page" (es self)
  = [] →
  get_all_ids localhost es_search (_activeCrawlerIndex self) "page" (es self)
  = Raise e →
  getTermsSummarySeedCrawler localhost term_search es_search getTopTerms getTtf
    self opt_maxNumberOfTerms = Raise e.
Proof.
  intros Hnone Hall. unfold getTermsSummarySeedCrawler.
  rewrite Hnone. cbn [length Nat.eqb negb]. by rewrite Hall.
Qed.

End TermsSummaryProofs.


(** ** The session under sequences of calls *)

Lemma session_step_filter_not_empty (self : CrawlerModel) (c : session_call) :
  _filter self ≠ Some "" → _filter (session_step self c) ≠ Some "".
Proof.
  intros Hself. destruct c as [crawlerId|[[|a text]|]|pagesCap]; cbn; done.
Qed.

(** X1. Whatever calls are made on a fresh session, its filter is never
    the empty string: it is unset or a text that is not empty. *)
Theorem session_filter_never_empty (calls : list session_call) :
  _filter (session_after calls) ≠ Some "".
Proof.
  unfold session_after.
  assert (_filter init ≠ Some "") as Hinit by done.
  revert Hinit. generalize init.
  induction calls as [|c calls IH]; intros self Hself; [done|].
  cbn [foldl]. by apply IH, session_step_filter_not_empty.
Qed.

(** X2. After a series of [applyFilter] calls the filter is the last text
    of the series that is not empty, and the filter of before when there
    is none; the other fields are those of before. *)
Theorem applyFilter_series (self : CrawlerModel)
    (filters : list (option string)) :
  _filter (foldl applyFilter self filters)
  = match last_text filters with
    | Some text => Some text
    | None => _filter self
    end ∧
  es (foldl applyFilter self filters) = es self ∧
  _activeCrawlerIndex (foldl applyFilter self filters)
  = _activeCrawlerIndex self ∧
  _pagesCap (foldl applyFilter self filters) = _pagesCap self.
Proof.
  revert self. induction filters as [|terms filters IH]; intros self; [done|].
  cbn [foldl last_text].
  destruct (IH (applyFilter self terms)) as (-> & -> & -> & ->).
  split_and!; [| by destruct terms as [[|? ?]|]..].
  destruct (last_text filters); [done|]. by destruct terms as [[|? ?]|].
Qed.

(** X3. A filter that is set stays set, and the active crawler stays the
    same, through every series of calls that does not switch the crawler:
    only [setActiveCrawler] clears a filter. *)
Theorem filter_cleared_only_by_switch (self : CrawlerModel)
    (calls : list session_call) :
  forallb keeps_crawler calls = true →
  is_Some (_filter self) →
  is_Some (_filter (foldl session_step self calls)) ∧
  _activeCrawlerIndex (foldl session_step self calls)
  = _activeCrawlerIndex self.
Proof.
  revert self. induction calls as [|c calls IH]; intros self Hcalls Hset; [done|].
  cbn [forallb] in Hcalls. apply andb_prop in Hcalls as [Hc Hcalls].
  cbn [foldl].
  destruct (IH (session_step self c) Hcalls) as [Hfilter ->].
  - destruct c as [crawlerId|[[|a text]|]|pagesCap]; cbn; done.
  - split; [done|].
    destruct c as [crawlerId|[[|a text]|]|pagesCap]; cbn; done.
Qed.

Lemma filter_cleared_only_by_switch_witness :
  let self := applyFilter init (Some "ebola") in
  let calls :=
    [call_applyFilter (Some ""); call_setPagesCountCap 10;
     call_applyFilter None] in
  forallb keeps_crawler calls = true ∧
  is_Some (_filter self) ∧
  is_Some (_filter (foldl session_step self calls)) ∧
  _activeCrawlerIndex (foldl session_step self calls)
  = _activeCrawlerIndex self.
Proof.
  intros self calls.
  assert (forallb keeps_crawler calls = true) as Hcalls by reflexivity.
  assert (is_Some (_filter self)) as Hset by (by eexists).
  split_and!; [done | done | |];
    apply (filter_cleared_only_by_switch self calls Hcalls Hset).
Defined.

(** ** [get_documents] on a batch *)

(** The first value of a list, as [hits[field][0]] reads it. *)
Lemma index_0_head {V : Type} (values : list V) (v : V) :
  index values 0 = Ok v ↔ head values = Some v.
Proof. destruct values; cbn; split; congruence. Qed.

(** X4. A record that [get_documents] builds holds, of the fields asked
    for, those the hit has, each with the first value of the hit's list,
    and no other field. *)
Theorem fill_record_lookup (fields : list string)
    (hits : gmap string (list string)) (record : gmap string string) :
  fill_record fields hits ∅ = Ok record →
  ∀ field,
    record !! field
    = if decide (field ∈ fields) then hits !! field ≫= head else None.
Proof.
  assert (∀ acc,
            fill_record fields hits acc = Ok record →
            ∀ field,
              record !! field
              = if decide (field ∈ fields)
                then match hits !! field ≫= head with
                     | Some v => Some v
                     | None => acc !! field
                     end
                else acc !! field) as Hgen.
  { induction fields as [|f fields IH]; intros acc Hfill field.
    - cbn in Hfill. injection Hfill as <-.
      rewrite decide_False by apply not_elem_of_nil. done.
    - cbn [fill_record] in Hfill.
      destruct (hits !! f) as [values|] eqn:Hf.
      + destruct values as [|v values]; [done|]. cbn in Hfill.
        rewrite (IH _ Hfill field).
        destruct (decide (field = f)) as [->|Hne].
        * rewrite (decide_True (P := f ∈ f :: fields)) by left.
          rewrite Hf. cbn. rewrite lookup_insert_eq.
          by destruct (decide (f ∈ fields)).
        * rewrite lookup_insert_ne by done.
          destruct (decide (field ∈ fields)) as [Hin|Hnot].
          -- rewrite decide_True by (by right). done.
          -- rewrite decide_False; [done|].
             intros [?|?]%elem_of_cons; done.
      + rewrite (IH _ Hfill field).
        destruct (decide (field = f)) as [->|Hne].
        * rewrite (decide_True (P := f ∈ f :: fields)) by left.
          rewrite Hf. cbn. by destruct (decide (f ∈ fields)).
        * destruct (decide (field ∈ fields)) as [Hin|Hnot].
          -- rewrite decide_True by (by right). done.
          -- rewrite decide_False; [done|].
             intros [?|?]%elem_of_cons; done. }
  intros Hfill field. rewrite (Hgen ∅ Hfill field), lookup_empty.
  destruct (decide (field ∈ fields)); [|done]. by destruct (hits !! field ≫= head).
Qed.

Lemma fill_record_lookup_witness :
  let hits : gmap string (list string) :=
    {[ "tag" := ["Relevant"; "Old"]; "text" := ["ebola"] ]} in
  let record : gmap string string := {[ "tag" := "Relevant" ]} in
  fill_record ["tag"; "url"] hits ∅ = Ok record ∧
  ∀ field,
    record !! field
    = if decide (field ∈ ["tag"; "url"]) then hits !! field ≫= head else None.
Proof.
  intros hits record.
  assert (fill_record ["tag"; "url"] hits ∅ = Ok record) as Hfill
    by (vm_compute; reflexivity).
  split; [exact Hfill|].
  exact (fill_record_lookup ["tag"; "url"] hits record Hfill).
Defined.

Section Batch.

Variables (es : ElasticSearch) (term_field : string) (fields : list string).
Variables (es_index : option string) (es_doc_type : string).

Lemma collect_lookup (terms : list string) :
  ∀ acc results,
    collect es term_field fields es_index es_doc_type terms acc = Ok results →
    ∀ term,
      results !! term
      = if decide (term ∈ terms)
        then match first_record es term_field fields es_index es_doc_type term with
             | Some (Ok record) => Some record
             | _ => acc !! term
             end
        else acc !! term.
Proof.
  induction terms as [|t terms IH]; intros acc results Hcollect term.
  - cbn in Hcollect. injection Hcollect as <-.
    by rewrite decide_False by apply not_elem_of_nil.
  - cbn [collect] in Hcollect.
    assert (∀ acc',
              collect es term_field fields es_index es_doc_type terms acc'
              = Ok results →
              acc' !! term
              = (if decide (term = t)
                 then match first_record es term_field fields es_index
                              es_doc_type term with
                      | Some (Ok record) => Some record
                      | _ => acc !! term
                      end
                 else acc !! term) →
              results !! term
              = if decide (term ∈ t :: terms)
                then match first_record es term_field fields es_index
                             es_doc_type term with
                     | Some (Ok record) => Some record
                     | _ => acc !! term
                     end
                else acc !! term) as Hstep.
    { intros acc' Hacc' Hterm. rewrite (IH _ _ Hacc' term), Hterm.
      destruct (decide (term = t)) as [->|Hne].
      - rewrite (decide_True (P := t ∈ t :: terms)) by left.
        destruct (decide (t ∈ terms)); [|done].
        by destruct (first_record _ _ _ _ _ t) as [[?|?]|].
      - destruct (decide (term ∈ terms)) as [Hin|Hnot].
        + by rewrite decide_True by (by right).
        + rewrite decide_False; [done|]. intros [?|?]%elem_of_cons; done. }
    unfold first_record in Hstep.
    destruct (search es es_index es_doc_type term_field t fields)
      as [|hits rest] eqn:Hsearch.
    + apply (Hstep acc Hcollect).
      destruct (decide (term = t)) as [->|]; [by rewrite Hsearch | done].
    + destruct (hit_fields hits) as [fs|] eqn:Hfs.
      * destruct (fill_record fields fs ∅) as [record|e] eqn:Hrecord; [|done].
        cbn [bind] in Hcollect. apply (Hstep _ Hcollect).
        destruct (decide (term = t)) as [->|Hne].
        -- by rewrite Hsearch, Hfs, Hrecord, lookup_insert_eq.
        -- by rewrite lookup_insert_ne.
      * apply (Hstep acc Hcollect).
        destruct (decide (term = t)) as [->|]; [by rewrite Hsearch, Hfs | done].
Qed.

End Batch.

(** The records of a batch, identifier by identifier. *)
Lemma get_documents_records (localhost : ElasticSearch) (terms : list string)
    (term_field : string) (fields : list string) (es_index : option string)
    (es_doc_type : string) (es : option ElasticSearch)
    (results : gmap string (gmap string string)) :
  get_documents localhost terms term_field fields es_index es_doc_type es
  = Ok results →
  ∀ term,
    results !! term
    = if decide (term ∈ terms)
      then match first_record (default localhost es) term_field fields
                   es_index es_doc_type term with
           | Some (Ok record) => Some record
           | _ => None
           end
      else None.
Proof.
  unfold get_documents. destruct (Nat.ltb 0 (length terms)); [|done].
  intros Hcollect term.
  replace (default localhost es)
    with (match es with Some es0 => es0 | None => localhost end)
    by (by destruct es).
  rewrite (collect_lookup _ _ _ _ _ _ _ _ Hcollect term), lookup_empty.
  destruct (decide (term ∈ terms)); [|done].
  by destruct (first_record _ _ _ _ _ _) as [[?|?]|].
Qed.

(** X5. When [get_documents] returns, the mapping holds a record exactly
    for the identifiers of the batch whose search has a first hit with
    ['fields'], and the record is the one built from that first hit: later
    hits are not looked at, and an identifier outside the batch has no
    record. *)
Theorem get_documents_lookup (localhost : ElasticSearch) (terms : list string)
    (term_field : string) (fields : list string) (es_index : option string)
    (es_doc_type : string) (es : option ElasticSearch)
    (results : gmap string (gmap string string)) :
  get_documents localhost terms term_field fields es_index es_doc_type es
  = Ok results →
  ∀ term,
    results !! term
    = if decide (term ∈ terms)
      then match first_record (default localhost es) term_field fields
                   es_index es_doc_type term with
           | Some (Ok record) => Some record
           | _ => None
           end
      else None.
Proof.
  unfold get_documents. destruct (Nat.ltb 0 (length terms)); [|done].
  intros Hcollect term.
  replace (default localhost es)
    with (match es with Some es0 => es0 | None => localhost end)
    by (by destruct es).
  rewrite (collect_lookup _ _ _ _ _ _ _ _ Hcollect term), lookup_empty.
  destruct (decide (term ∈ terms)); [|done].
  by destruct (first_record _ _ _ _ _ _) as [[?|?]|].
Qed.

Lemma get_documents_lookup_witness :
  let store : gmap string (gmap string string) :=
    {[ "B" := <["tag" := "Negative"]> {[ "url" := "B" ]} ]} in
  let results : gmap string (gmap string string) :=
    {[ "B" := {[ "tag" := "Negative" ]} ]} in
  get_documents (connection store) ["A"; "B"] "url" ["tag"] None "page" None
  = Ok results ∧
  ∀ term,
    results !! term
    = if decide (term ∈ ["A"; "B"])
      then match first_record (connection store) "url" ["tag"] None "page" term with
           | Some (Ok record) => Some record
           | _ => None
           end
      else None.
Proof.
  intros store results.
  assert (get_documents (connection store) ["A"; "B"] "url" ["tag"] None
            "page" None = Ok results) as Hresults by (vm_compute; reflexivity).
  split; [exact Hresults|].
  exact (get_documents_lookup (connection store) ["A"; "B"] "url" ["tag"] None
           "page" None results Hresults).
Defined.

Lemma fill_record_returns (fields : list string)
    (hits : gmap string (list string)) :
  (∀ field, field ∈ fields → hits !! field ≠ Some []) →
  ∀ acc, ∃ record, fill_record fields hits acc = Ok record.
Proof.
  induction fields as [|f fields IH]; intros Hhits acc; [by eexists|].
  cbn [fill_record].
  assert (∀ field, field ∈ fields → hits !! field ≠ Some []) as Hrest
    by (intros; apply Hhits; by right).
  destruct (hits !! f) as [[|v values]|] eqn:Hf.
  - by destruct (Hhits f (list_elem_of_here _ _)).
  - cbn. apply (IH Hrest).
  - apply (IH Hrest).
Qed.

Lemma fill_record_exception (fields : list string)
    (hits : gmap string (list string)) :
  ∀ acc e, fill_record fields hits acc = Raise e → e = IndexError.
Proof.
  induction fields as [|f fields IH]; intros acc e; [done|].
  cbn [fill_record]. destruct (hits !! f) as [[|v values]|].
  - cbn. congruence.
  - cbn. apply IH.
  - apply IH.
Qed.

(** X6. For a batch that is not empty, [get_documents] returns when no
    hit has an empty list of values for a field asked for, and the only
    exception it can raise otherwise is [IndexError]. *)
Theorem get_documents_returns (localhost : ElasticSearch)
    (terms : list string) (term_field : string) (fields : list string)
    (es_index : option string) (es_doc_type : string)
    (es : option ElasticSearch) :
  terms ≠ [] →
  (values_present (default localhost es) term_field fields es_index
     es_doc_type terms →
   ∃ results,
     get_documents localhost terms term_field fields es_index es_doc_type es
     = Ok results) ∧
  (∀ e,
     get_documents localhost terms term_field fields es_index es_doc_type es
     = Raise e → e = IndexError).
Proof.
  intros Hterms. unfold get_documents.
  replace (match es with Some es0 => es0 | None => localhost end)
    with (default localhost es) by (by destruct es).
  destruct terms as [|t0 terms0]; [done|]. cbn [length Nat.ltb Nat.leb].
  generalize (∅ : gmap string (gmap string string)).
  generalize (t0 :: terms0). clear. intros terms. split.
  - revert g. induction terms as [|t terms IH]; intros acc Hpresent; [by eexists|].
    cbn [collect].
    assert (values_present (default localhost es) term_field fields es_index
              es_doc_type terms) as Hrest.
    { intros term hits rest values field Hin. apply Hpresent. by right. }
    destruct (search _ _ _ _ t _) as [|hits rest] eqn:Hsearch; [by apply IH|].
    destruct (hit_fields hits) as [values|] eqn:Hvalues; [|by apply IH].
    destruct (fill_record_returns fields values) with (acc := (∅ : gmap string string))
      as [record ->].
    + intros field. by eapply Hpresent; [left|..].
    + cbn. by apply IH.
  - revert g. induction terms as [|t terms IH]; intros acc e; [done|].
    cbn [collect].
    destruct (search _ _ _ _ t _) as [|hits rest]; [by apply IH|].
    destruct (hit_fields hits) as [values|]; [|by apply IH].
    destruct (fill_record fields values ∅) as [record|e'] eqn:Hrecord.
    + cbn. apply IH.
    + cbn. intros [= <-]. by eapply fill_record_exception.
Qed.

Lemma get_documents_returns_witness :
  let store : gmap string (gmap string string) :=
    {[ "B" := <["tag" := "Negative"]> {[ "url" := "B" ]} ]} in
  ["A"; "B"] ≠ [] ∧
  values_present (connection store) "url" ["tag"] None "page" ["A"; "B"] ∧
  ∃ results,
    get_documents (connection store) ["A"; "B"] "url" ["tag"] None "page" None
    = Ok results.
Proof.
  intros store.
  assert (["A"; "B"] ≠ ([] : list string)) as Hterms by done.
  assert (values_present (connection store) "url" ["tag"] None "page"
            ["A"; "B"]) as Hpresent.
  { intros term hits rest values field _ Hsearch Hvalues Hfield.
    cbn in Hsearch. unfold find in Hsearch.
    destruct (store !! term) as [doc|]; [|done].
    injection Hsearch as <- <-. cbn in Hvalues.
    destruct (decide _); [done|]. injection Hvalues as <-.
    rewrite lookup_fmap. by destruct (_ !! field). }
  split_and!; [done | done |].
  apply (proj1 (get_documents_returns (connection store) ["A"; "B"] "url"
                  ["tag"] None "page" None Hterms)).
  exact Hpresent.
Defined.

(** ** [get_most_recent_documents] and [get_all_ids] *)

Lemma join_single (sep text : string) : join sep [text] = text.
Proof. done. Qed.

(** X7. The request of [get_most_recent_documents] matches everything
    when there is no filter; for a filter made of words separated by
    single spaces it is a query on the text of the page for those words
    joined by [" and  "]. *)
Theorem most_recent_request_words (opt_maxNumberOfPages : Z)
    (fields : list string) (words : list string) :
  words ≠ [] →
  Forall (λ word, has_char " "%char word = false) words →
  request_query
    (most_recent_request opt_maxNumberOfPages fields (Some (join " " words)))
  = query_string ["text"] (join " and  " words) ∧
  request_query (most_recent_request opt_maxNumberOfPages fields None)
  = match_all.
Proof.
  intros Hwords Hspaces. split; [|done].
  cbn [most_recent_request request_query].
  by rewrite (split_join " "%char words Hwords Hspaces).
Qed.

Lemma most_recent_request_words_witness :
  ["ebola"; "disease"] ≠ [] ∧
  Forall (λ word, has_char " "%char word = false) ["ebola"; "disease"] ∧
  request_query (most_recent_request 1000 ["url"] (Some "ebola disease"))
  = query_string ["text"] "ebola and  disease".
Proof.
  assert (["ebola"; "disease"] ≠ ([] : list string)) as Hwords by done.
  assert (Forall (λ word, has_char " "%char word = false) ["ebola"; "disease"])
    as Hspaces by (repeat constructor).
  split_and!; [done | done |].
  exact (proj1 (most_recent_request_words 1000 ["url"] ["ebola"; "disease"]
                  Hwords Hspaces)).
Defined.

Lemma fields_of_hits_Ok {F : Type} (hits : list (option F)) (results : list F) :
  fields_of_hits hits = Ok results ↔ hits = map Some results.
Proof.
  revert results. induction hits as [|[fields|] hits IH]; intros results.
  - cbn. split; [intros [= <-]; done|]. by destruct results.
  - cbn [fields_of_hits]. split.
    + destruct (fields_of_hits hits) as [rest|e] eqn:Hrest; [|done].
      cbn. intros [= <-]. cbn. f_equal. by apply IH.
    + destruct results as [|r results]; [done|]. cbn. intros [= -> Hhits].
      apply IH in Hhits. by rewrite Hhits.
  - cbn. split; [done|]. by destruct results.
Qed.

Lemma fields_of_hits_Raise {F : Type} (hits : list (option F)) (e : exn) :
  fields_of_hits hits = Raise e → e = KeyError ∧ None ∈ hits.
Proof.
  induction hits as [|[fields|] hits IH]; [done| |].
  - cbn. destruct (fields_of_hits hits); [done|].
    cbn. intros [= <-]. destruct IH as [-> Hin]; [done|]. split; [done|]. by right.
  - cbn. intros [= <-]. split; [done|]. by left.
Qed.

Lemma fields_of_hits_None {F : Type} (hits : list (option F)) :
  None ∈ hits → fields_of_hits hits = Raise KeyError.
Proof.
  intros Hin. destruct (fields_of_hits hits) as [results|e] eqn:Hhits.
  - apply fields_of_hits_Ok in Hhits. subst.
    apply list_elem_of_fmap in Hin as (? & ? & ?). done.
  - by apply fields_of_hits_Raise in Hhits as [-> _].
Qed.

(** X8. [get_most_recent_documents] returns the ['fields'] of the hits of
    its request, one per hit and in their order, when every hit has
    ['fields'], and raises [KeyError] as soon as one has not. *)
Theorem get_most_recent_documents_fields (localhost : ElasticSearch)
    (F : Type)
    (es_search : ElasticSearch → request → option string → string →
                 option Z → list (option F))
    (opt_maxNumberOfPages : Z) (fields : list string)
    (opt_filter : option string) (es_index : option string)
    (es_doc_type : string) (es : option ElasticSearch) :
  let hits :=
    es_search (default localhost es)
      (most_recent_request opt_maxNumberOfPages fields opt_filter)
      es_index es_doc_type None in
  let documents :=
    get_most_recent_documents localhost F es_search opt_maxNumberOfPages
      fields opt_filter es_index es_doc_type es in
  (∀ results, documents = Ok results ↔ hits = map Some results) ∧
  (None ∈ hits ↔ documents = Raise KeyError).
Proof.
  intros hits documents. subst hits documents.
  unfold get_most_recent_documents.
  replace (match es with Some es0 => es0 | None => localhost end)
    with (default localhost es) by (by destruct es).
  split.
  - intros results. apply fields_of_hits_Ok.
  - split; [apply fields_of_hits_None|].
    intros Hraise. by apply fields_of_hits_Raise in Hraise as [_ ?].
Qed.

(** X9. [get_all_ids] returns a list of urls exactly when every hit has
    ['fields'] with a ['url'] list that is not empty, the urls being the
    first values of those lists in the order of the hits. *)
Theorem get_all_ids_urls (localhost : ElasticSearch)
    (es_search : ElasticSearch → request → option string → string →
                 option Z → list hit)
    (es_index : option string) (es_doc_type : string)
    (es : option ElasticSearch) (urls : list string) :
  let hits :=
    es_search (default localhost es)
      {| request_size := None; request_sort := [];
         request_query := match_all; request_fields := Some ["url"] |}
      es_index es_doc_type (Some 100000%Z) in
  get_all_ids localhost es_search es_index es_doc_type es = Ok urls
  ↔ Forall2
      (λ hit url,
         ∃ fields rest,
           hit_fields hit = Some fields ∧ fields !! "url" = Some (url :: rest))
      hits urls.
Proof.
  intros hits. subst hits. unfold get_all_ids.
  replace (match es with Some es0 => es0 | None => localhost end)
    with (default localhost es) by (by destruct es).
  generalize (es_search (default localhost es)
                {| request_size := None; request_sort := [];
                   request_query := match_all; request_fields := Some ["url"] |}
                es_index es_doc_type (Some 100000%Z)).
  intros hits. revert urls.
  induction hits as [|hit hits IH]; intros urls.
  - cbn. split.
    + intros [= <-]. constructor.
    + intros Hnil. by apply Forall2_nil_inv_l in Hnil as ->.
  - cbn [urls_of_hits]. split.
    + destruct (hit_fields hit) as [fields|] eqn:Hfields; [|done].
      cbn [bind]. unfold getitem.
      destruct (fields !! "url") as [[|url rest]|] eqn:Hurl; [done| |done].
      cbn. destruct (urls_of_hits hits) as [urls'|e] eqn:Hurls; [|done].
      cbn. intros [= <-]. constructor; [by eexists _, _|]. by apply IH.
    + intros Hall. apply Forall2_cons_inv_l in Hall
        as (url & urls' & (fields & rest & -> & Hurl) & Hall & ->).
      cbn [bind]. unfold getitem. rewrite Hurl. cbn.
      apply IH in Hall. by rewrite Hall.
Qed.

(** ** [getTermSnippets] *)

Lemma chars_length (s : string) : length (chars s) = String.length s.
Proof. induction s as [|a s IH]; cbn; [done | by rewrite IH]. Qed.

Lemma elem_of_chars (c s : string) : c ∈ chars s → String.length c = 1.
Proof.
  induction s as [|a s IH]; cbn; [by intros ?%elem_of_nil|].
  intros [->|Hin]%elem_of_cons; [done | by apply IH].
Qed.

Section TermSnippetsProofs.

Variable localhost : ElasticSearch.
Variable context : Type.
Variable get_context :
  list string → option string → string → option ElasticSearch → context.

(** X10. For a term of two characters or more, [getTermSnippets] never
    returns a tag: [get_documents] is given the term itself and looks up
    its characters one by one, so the mapping has no record under the
    term.  When it holds a record for some character, the lookup of the
    term raises [KeyError]; otherwise the tags returned are empty. *)
Theorem getTermSnippets_long_term (self : CrawlerModel) (term : string) :
  (2 ≤ String.length term)%nat →
  (∀ snippets,
     getTermSnippets localhost context get_context self term = Ok snippets →
     snippets_tags snippets = []) ∧
  (∀ results,
     get_documents localhost (chars term) "term" ["tag"]
       (_activeCrawlerIndex self) "terms" (es self) = Ok results →
     (results = ∅ →
      getTermSnippets localhost context get_context self term
      = Ok (Snippets term []
              (get_context [term] (_activeCrawlerIndex self) "page" (es self)))) ∧
     (results ≠ ∅ →
      getTermSnippets localhost context get_context self term
      = Raise KeyError)).
Proof.
  intros Hlong.
  assert (∀ results,
            get_documents localhost (chars term) "term" ["tag"]
              (_activeCrawlerIndex self) "terms" (es self) = Ok results →
            results !! term = None) as Hno_record.
  { intros results Hresults.
    rewrite (get_documents_records _ _ _ _ _ _ _ _ Hresults term).
    rewrite decide_False; [done|].
    intros Hin%elem_of_chars. lia. }
  assert (∀ results,
            get_documents localhost (chars term) "term" ["tag"]
              (_activeCrawlerIndex self) "terms" (es self) = Ok results →
            (results = ∅ →
             getTermSnippets localhost context get_context self term
             = Ok (Snippets term []
                     (get_context [term] (_activeCrawlerIndex self) "page"
                        (es self)))) ∧
            (results ≠ ∅ →
             getTermSnippets localhost context get_context self term
             = Raise KeyError)) as Hcases.
  { intros results Hresults. unfold getTermSnippets. rewrite Hresults.
    cbn [bind]. split.
    - intros ->. by rewrite map_size_empty.
    - intros Hne. unfold getitem at 1. rewrite (Hno_record _ Hresults).
      destruct (size results) eqn:Hsize; [|done].
      by apply map_size_empty_inv in Hsize. }
  split; [|exact Hcases].
  intros snippets Hsnippets.
  destruct (get_documents localhost (chars term) "term" ["tag"]
              (_activeCrawlerIndex self) "terms" (es self))
    as [results|e] eqn:Hresults.
  - destruct (Hcases results eq_refl) as [Hempty Hfull].
    destruct (decide (results = ∅)) as [Hres|Hres].
    + rewrite (Hempty Hres) in Hsnippets. by injection Hsnippets as <-.
    + by rewrite (Hfull Hres) in Hsnippets.
  - unfold getTermSnippets in Hsnippets. by rewrite Hresults in Hsnippets.
Qed.

End TermSnippetsProofs.

Lemma getTermSnippets_long_term_witness :
  let store : gmap string (gmap string string) :=
    {[ "ebola" := <["tag" := "Positive"]> {[ "term" := "ebola" ]};
       "e" := <["tag" := "Letter"]> {[ "term" := "e" ]} ]} in
  let context_of (terms : list string) (_ : option string) (_ : string)
      (_ : option ElasticSearch) : list string := terms in
  (2 ≤ String.length "ebola")%nat ∧
  stored_tag store "ebola" = Some "Positive" ∧
  getTermSnippets (connection store) (list string) context_of
    (connect init store) "ebola" = Raise KeyError ∧
  getTermSnippets (connection (delete "e" store)) (list string) context_of
    (connect init (delete "e" store)) "ebola"
  = Ok (Snippets "ebola" [] ["ebola"]).
Proof.
  intros store context_of.
  assert (2 ≤ String.length "ebola")%nat as Hlong by (cbn; lia).
  split_and!; [done | reflexivity | |].
  - apply (proj2 (getTermSnippets_long_term (connection store) (list string)
                    context_of (connect init store) "ebola" Hlong)
             {[ "e" := {[ "tag" := "Letter" ]} ]}).
    + vm_compute. reflexivity.
    + apply insert_non_empty.
  - apply (proj2 (getTermSnippets_long_term (connection (delete "e" store))
                    (list string) context_of
                    (connect init (delete "e" store)) "ebola" Hlong) ∅).
    + vm_compute. reflexivity.
    + reflexivity.
Defined.

(** ** The rows of the terms summary *)

Lemma term_rows_returns (tags : gmap string (gmap string string))
    (pos neg : string → Z) (keys top_terms : list string) :
  top_terms ⊆ keys →
  (∀ term record,
     term ∈ top_terms → tags !! term = Some record → is_Some (record !! "tag")) →
  ∀ terms,
    term_rows tags (dict_comp pos keys) (dict_comp neg keys) top_terms terms
    = Ok (terms ++
          map (λ term,
                 (term, pos term, neg term,
                  match tags !! term with
                  | None => []
                  | Some record => decode_field (record !! "tag")
                  end))
            top_terms).
Proof.
  induction top_terms as [|term top_terms IH]; intros Hkeys Htags terms.
  - cbn. by rewrite app_nil_r.
  - cbn [term_rows map]. unfold getitem at 1 2.
    rewrite !dict_comp_lookup by (apply Hkeys; left). cbn [bind].
    assert (top_terms ⊆ keys) as Hrest by (intros t Ht; apply Hkeys; by right).
    destruct (tags !! term) as [record|] eqn:Hrecord.
    + destruct (Htags term record) as [tag Htag]; [left | done |].
      unfold getitem. rewrite Htag. cbn [bind decode_field].
      rewrite IH; [|done|intros; eapply Htags; [by right | done]].
      by rewrite <- app_assoc.
    + cbn [bind].
      rewrite IH; [|done|intros; eapply Htags; [by right | done]].
      by rewrite <- app_assoc.
Qed.

Section TermsSummaryRows.

Variable localhost : ElasticSearch.
Variable term_search :
  string → list string → option string → string → option ElasticSearch →
  list string.
Variable es_search :
  ElasticSearch → request → option string → string → option Z → list hit.
Variable getTopTerms : list string → nat → list string.
Variable getTtf : list string → gmap string Z.

(** X11. With two positive urls or more but no top term,
    [getTermsSummarySeedCrawler] raises [UnboundLocalError]: it calls
    [get_documents] with the empty list of terms. *)
Theorem getTermsSummarySeedCrawler_no_top_terms (self : CrawlerModel)
    (opt_maxNumberOfTerms : nat) (pos_urls : list string) :
  positive_urls localhost term_search es_search self = Ok pos_urls →
  (2 ≤ length pos_urls)%nat →
  getTopTerms pos_urls opt_maxNumberOfTerms = [] →
  getTermsSummarySeedCrawler localhost term_search es_search getTopTerms
    getTtf self opt_maxNumberOfTerms = Raise UnboundLocalError.
Proof.
  unfold positive_urls, getTermsSummarySeedCrawler. intros -> Hmany Hnone.
  cbn [bind]. destruct (Nat.ltb_spec 1 (length pos_urls)); [|lia].
  by rewrite Hnone.
Qed.

(** X12. When [get_documents] returns the records of the top terms and
    each record has a tag, [getTermsSummarySeedCrawler] returns one row
    per top term, in the order of the ranking: the term, its frequency
    over the positive urls (zero for a term the frequencies do not list,
    and zero throughout after the fallback to all urls), its frequency
    over the urls tagged [Irrelevant] (zero throughout when fewer than 2
    are), and the tags of its record, none for a term without record. *)
Theorem getTermsSummarySeedCrawler_rows (self : CrawlerModel)
    (opt_maxNumberOfTerms : nat) (pos_urls : list string)
    (tags : gmap string (gmap string string)) :
  let relevant :=
    term_search "tag" ["Relevant"] (_activeCrawlerIndex self) "page" (es self) in
  let irrelevant :=
    term_search "tag" ["Irrelevant"] (_activeCrawlerIndex self) "page" (es self) in
  let top_terms := getTopTerms pos_urls opt_maxNumberOfTerms in
  positive_urls localhost term_search es_search self = Ok pos_urls →
  (2 ≤ length pos_urls)%nat →
  get_documents localhost top_terms "term" ["tag"] (_activeCrawlerIndex self)
    "terms" (es self) = Ok tags →
  (∀ term record,
     term ∈ top_terms → tags !! term = Some record → is_Some (record !! "tag")) →
  getTermsSummarySeedCrawler localhost term_search es_search getTopTerms
    getTtf self opt_maxNumberOfTerms
  = Ok (map
          (λ term,
             (term,
              match relevant with
              | [] => 0%Z
              | _ => ttf_or_zero (getTtf relevant) term
              end,
              if Nat.ltb 1 (length irrelevant)
              then ttf_or_zero (getTtf irrelevant) term else 0%Z,
              match tags !! term with
              | None => []
              | Some record => decode_field (record !! "tag")
              end))
          top_terms).
Proof.
  intros relevant irrelevant top_terms Hurls Hmany Htags Hrecords.
  unfold positive_urls in Hurls. fold relevant in Hurls.
  unfold getTermsSummarySeedCrawler. fold relevant. fold irrelevant.
  rewrite Hurls. cbn [bind].
  destruct (Nat.ltb_spec 1 (length pos_urls)); [|lia].
  fold top_terms. rewrite Htags. cbn [bind].
  destruct relevant as [|u relevant'] eqn:Hrelevant;
    cbn [length Nat.eqb negb] in Hurls |- *.
  - destruct (Nat.ltb 1 (length irrelevant)); by rewrite term_rows_returns.
  - assert (pos_urls = u :: relevant') as Hsame by congruence.
    rewrite <- Hsame.
    destruct (Nat.ltb 1 (length irrelevant)); by rewrite term_rows_returns.
Qed.

End TermsSummaryRows.

Lemma getTermsSummarySeedCrawler_no_top_terms_witness :
  let none_tagged (_ : string) (_ : list string) (_ : option string)
      (_ : string) (_ : option ElasticSearch) : list string := [] in
  let all (_ : ElasticSearch) (_ : request) (_ : option string) (_ : string)
      (_ : option Z) : list hit :=
    [Hit (Some {[ "url" := ["http://a"] ]});
     Hit (Some {[ "url" := ["http://b"] ]})] in
  let ranked (_ : list string) (_ : nat) : list string := [] in
  positive_urls (connection ∅) none_tagged all init
  = Ok ["http://a"; "http://b"] ∧
  getTermsSummarySeedCrawler (connection ∅) none_tagged all ranked (λ _, ∅)
    init 0 = Raise UnboundLocalError.
Proof.
  intros none_tagged all ranked.
  assert (positive_urls (connection ∅) none_tagged all init
          = Ok ["http://a"; "http://b"]) as Hurls by (vm_compute; reflexivity).
  split; [exact Hurls|].
  apply (getTermsSummarySeedCrawler_no_top_terms (connection ∅) none_tagged
           all ranked (λ _, ∅) init 0 ["http://a"; "http://b"] Hurls);
    [cbn; lia | reflexivity].
Defined.

Lemma getTermsSummarySeedCrawler_rows_witness :
  let store : gmap string (gmap string string) :=
    {[ "ebola" := <["tag" := "Positive;Disease"]> {[ "term" := "ebola" ]} ]} in
  let tagged (_ : string) (labels : list string) (_ : option string)
      (_ : string) (_ : option ElasticSearch) : list string :=
    match labels with
    | ["Relevant"] => ["http://a"; "http://b"]
    | _ => ["http://c"]
    end in
  let ranked (_ : list string) (_ : nat) := ["ebola"; "virus"] in
  let ttf (_ : list string) : gmap string Z := {[ "ebola" := 5%Z ]} in
  getTermsSummarySeedCrawler (connection store) tagged (λ _ _ _ _ _, [])
    ranked ttf (connect init store) 50
  = Ok [("ebola", 5%Z, 0%Z, ["Positive"; "Disease"]); ("virus", 0%Z, 0%Z, [])].
Proof.
  intros store tagged ranked ttf.
  rewrite (getTermsSummarySeedCrawler_rows (connection store) tagged
             (λ _ _ _ _ _, []) ranked ttf (connect init store) 50
             ["http://a"; "http://b"]
             {[ "ebola" := {[ "tag" := "Positive;Disease" ]} ]}).
  - vm_compute. reflexivity.
  - vm_compute. reflexivity.
  - cbn. lia.
  - vm_compute. reflexivity.
  - intros term record _ Hrecord.
    apply lookup_singleton_Some in Hrecord as [_ <-].
    rewrite lookup_singleton_eq. by eexists.
Defined.

(** ** More on the tagging loops *)

(** X13. [setTermsTag] never removes a tag: with [applyTagFlag] false it
    makes no call on the gateway when it returns, whatever the terms and
    their stored tags. *)
Theorem setTermsTag_remove_never_submits (localhost : ElasticSearch)
    (self : CrawlerModel) (terms : list string) (tag : string)
    (calls : list gateway_call) :
  setTermsTag localhost self terms tag false = Ok calls → calls = [].
Proof.
  unfold setTermsTag.
  destruct (get_documents _ _ _ _ _ _ _) as [results|e]; [|done]. cbn [bind].
  destruct (terms_remove_loop results tag terms [] [])
    as [[adds updates]|e] eqn:Hloop; [|done].
  apply terms_remove_loop_keeps in Hloop as [-> ->]. cbn. by intros [= <-].
Qed.

Lemma setTermsTag_remove_never_submits_witness :
  let store : gmap string (gmap string string) :=
    {[ "ebola" := <["tag" := "Positive"]> {[ "term" := "ebola" ]} ]} in
  setTermsTag (connection store) (connect init store) ["ebola"; "virus"]
    "Negative" false = Ok [].
Proof.
  intros store.
  assert (∃ calls,
            setTermsTag (connection store) (connect init store)
              ["ebola"; "virus"] "Negative" false = Ok calls) as [calls Hcalls]
    by (eexists; vm_compute; reflexivity).
  rewrite Hcalls. f_equal.
  exact (setTermsTag_remove_never_submits (connection store)
           (connect init store) ["ebola"; "virus"] "Negative" calls Hcalls).
Defined.

(** The add loop of [setTermsTag] appends a create for a term without
    record and an update for a term with one. *)
Lemma terms_add_loop_entries (results : gmap string (gmap string string))
    (tag : string) (batch terms : list string) :
  terms ⊆ batch →
  ∀ add_entries update_entries adds updates,
    terms_add_loop results tag terms add_entries update_entries
    = Ok (adds, updates) →
    Forall (λ e, ∃ term, term ∈ batch ∧ results !! term = None ∧
                         e = make_entry "term" term tag) add_entries →
    Forall (λ e, ∃ term new_tag, term ∈ batch ∧ is_Some (results !! term) ∧
                                 e = make_entry "term" term new_tag)
      update_entries →
    Forall (λ e, ∃ term, term ∈ batch ∧ results !! term = None ∧
                         e = make_entry "term" term tag) adds ∧
    Forall (λ e, ∃ term new_tag, term ∈ batch ∧ is_Some (results !! term) ∧
                                 e = make_entry "term" term new_tag) updates.
Proof.
  induction terms as [|term terms IH];
    intros Hbatch add_entries update_entries adds updates.
  - cbn. by intros [= <- <-].
  - assert (terms ⊆ batch) as Hrest by (intros t Ht; apply Hbatch; by right).
    assert (term ∈ batch) as Hterm by (apply Hbatch; left).
    cbn [terms_add_loop]. intros Hloop Hadds Hupdates.
    destruct (Nat.ltb 0 (size results)) eqn:Hsize.
    + destruct (results !! term) as [record|] eqn:Hrecord.
      * destruct (getitem record "tag") as [old_tag|e]; [|done].
        cbn [bind] in Hloop.
        destruct (str_in tag old_tag); cbn [negb] in Hloop.
        -- by apply (IH Hrest _ _ _ _ Hloop).
        -- apply (IH Hrest _ _ _ _ Hloop); [done|].
           apply Forall_app. split; [done|]. constructor; [|done].
           exists term, ((old_tag +:+ ";") +:+ tag). by rewrite Hrecord.
      * apply (IH Hrest _ _ _ _ Hloop); [|done].
        apply Forall_app. split; [done|]. constructor; [|done]. by exists term.
    + apply (IH Hrest _ _ _ _ Hloop); [|done].
      apply Forall_app. split; [done|]. constructor; [|done].
      exists term. split_and!; [done | by apply size_0_lookup | done].
Qed.

(** X14. When [setTermsTag] adds a tag, the creates and the updates it
    submits are for terms of the batch, a create carrying the tag alone,
    and no term has both a create and an update. *)
Theorem setTermsTag_add_entries (localhost : ElasticSearch)
    (self : CrawlerModel) (terms : list string) (tag : string)
    (calls : list gateway_call) :
  setTermsTag localhost self terms tag true = Ok calls →
  ∃ adds updates,
    calls
    = (if decide (adds = []) then []
       else [add_document adds (_activeCrawlerIndex self) "terms"])
      ++
      (if decide (updates = []) then []
       else [update_document updates "term" (_activeCrawlerIndex self) "terms"]) ∧
    (∀ e, e ∈ adds → ∃ term, term ∈ terms ∧ e = make_entry "term" term tag) ∧
    (∀ e, e ∈ updates →
          ∃ term new_tag, term ∈ terms ∧ e = make_entry "term" term new_tag) ∧
    (∀ e1 e2, e1 ∈ adds → e2 ∈ updates → e1 !! "term" ≠ e2 !! "term").
Proof.
  unfold setTermsTag.
  destruct (get_documents _ _ _ _ _ _ _) as [results|e]; [|done]. cbn [bind].
  destruct (terms_add_loop results tag terms [] [])
    as [[adds updates]|e] eqn:Hloop; [|done].
  cbn [bind]. intros [= <-].
  destruct (terms_add_loop_entries results tag terms terms (reflexivity _)
              _ _ _ _ Hloop) as [Hadds Hupdates]; [constructor..|].
  rewrite Forall_forall in Hadds. rewrite Forall_forall in Hupdates.
  exists adds, updates. split_and!.
  - by destruct adds, updates.
  - intros e He. destruct (Hadds e He) as (term & ? & ? & ?). by exists term.
  - intros e He. destruct (Hupdates e He) as (term & new_tag & ? & ? & ?).
    by exists term, new_tag.
  - intros e1 e2 He1 He2.
    destruct (Hadds e1 He1) as (t1 & _ & Hnone & ->).
    destruct (Hupdates e2 He2) as (t2 & new_tag & _ & [record Hsome] & ->).
    rewrite !make_entry_key by done. intros [= ->]. congruence.
Qed.

Lemma setTermsTag_add_entries_witness :
  let store : gmap string (gmap string string) :=
    {[ "B" := <["tag" := "Negative"]> {[ "term" := "B" ]} ]} in
  let calls :=
    [add_document [make_entry "term" "A" "Positive"] None "terms";
     update_document [make_entry "term" "B" "Negative;Positive"] "term" None
       "terms"] in
  setTermsTag (connection store) (connect init store) ["A"; "B"] "Positive" true
  = Ok calls ∧
  ∃ adds updates,
    calls
    = (if decide (adds = []) then [] else [add_document adds None "terms"])
      ++
      (if decide (updates = []) then []
       else [update_document updates "term" None "terms"]) ∧
    (∀ e, e ∈ adds →
          ∃ term, term ∈ ["A"; "B"] ∧ e = make_entry "term" term "Positive") ∧
    (∀ e, e ∈ updates →
          ∃ term new_tag,
            term ∈ ["A"; "B"] ∧ e = make_entry "term" term new_tag) ∧
    (∀ e1 e2, e1 ∈ adds → e2 ∈ updates → e1 !! "term" ≠ e2 !! "term").
Proof.
  intros store calls.
  assert (setTermsTag (connection store) (connect init store) ["A"; "B"]
            "Positive" true = Ok calls) as Hcalls by (vm_compute; reflexivity).
  split; [exact Hcalls|].
  exact (setTermsTag_add_entries (connection store) (connect init store)
           ["A"; "B"] "Positive" calls Hcalls).
Defined.

(** X15. An entry that the add path of [setPagesTag] emits for a page is
    keyed by that page, and its tag string decodes to the tags stored for
    the page, in their order, followed by the new tag: no stored tag is
    lost.  (The tag holds no delimiter.) *)
Theorem pages_add_entry_keeps_tags (results : gmap string (gmap string string))
    (tag page : string) (entry : gmap string string) :
  has_char semicolon tag = false →
  pages_add_entry results tag page = Ok entry →
  entry ≠ ∅ →
  entry !! "url" = Some page ∧
  ∃ new_tag,
    entry !! "tag" = Some new_tag ∧
    decode new_tag
    = decode_field (results !! page ≫= (λ record, record !! "tag")) ++ [tag].
Proof.
  intros Htag Hentry Hnot_empty.
  assert (decode tag = [tag]) as Halone by (by apply split_no_sep).
  unfold pages_add_entry in Hentry.
  destruct (Nat.ltb 0 (size results)) eqn:Hsize.
  - destruct (results !! page) as [record|] eqn:Hrecord.
    + unfold getitem in Hentry.
      destruct (record !! "tag") as [old|] eqn:Hold; [|done].
      cbn [bind] in Hentry.
      destruct (str_in tag old); cbn [negb] in Hentry;
        injection Hentry as <-; [done|].
      split; [by apply make_entry_key|]. eexists. split; [apply make_entry_tag|].
      cbn. rewrite Hold. cbn. by apply decode_append_tag.
    + injection Hentry as <-.
      split; [by apply make_entry_key|]. eexists. split; [apply make_entry_tag|].
      done.
  - injection Hentry as <-. rewrite (size_0_lookup _ _ Hsize).
    split; [by apply make_entry_key|]. eexists. split; [apply make_entry_tag|].
    done.
Qed.

Lemma pages_add_entry_keeps_tags_witness :
  let results : gmap string (gmap string string) :=
    {[ "B" := {[ "tag" := "Negative;Old" ]} ]} in
  let entry := make_entry "url" "B" "Negative;Old;Positive" in
  has_char semicolon "Positive" = false ∧
  pages_add_entry results "Positive" "B" = Ok entry ∧
  entry ≠ ∅ ∧
  ∃ new_tag,
    entry !! "tag" = Some new_tag ∧
    decode new_tag = ["Negative"; "Old"] ++ ["Positive"].
Proof.
  intros results entry.
  assert (pages_add_entry results "Positive" "B" = Ok entry) as Hentry
    by (vm_compute; reflexivity).
  assert (entry ≠ ∅) as Hnot_empty by apply make_entry_not_empty.
  split_and!; [reflexivity | exact Hentry | exact Hnot_empty |].
  exact (proj2 (pages_add_entry_keeps_tags results "Positive" "B" entry
                  eq_refl Hentry Hnot_empty)).
Defined.

Lemma filter_make_entry (key_field tag : string) (pages : list string) :
  List.filter (λ e : gmap string string, negb (bool_decide (e = ∅)))
    (map (λ page, make_entry key_field page tag) pages)
  = map (λ page, make_entry key_field page tag) pages.
Proof.
  induction pages as [|page pages IH]; [done|]. cbn [map List.filter].
  rewrite bool_decide_eq_false_2 by apply make_entry_not_empty.
  cbn. by rewrite IH.
Qed.

(** X16. When [get_documents] finds no record for any page of the batch,
    [setPagesTag] with the flag set submits one entry per page of the
    batch, in order and with the tag alone, a page listed twice getting
    two; with the flag not set it still calls [update_document], with no
    entry. *)
Theorem setPagesTag_no_records (localhost : ElasticSearch)
    (self : CrawlerModel) (pages : list string) (tag : string) :
  get_documents localhost pages "url" ["tag"] (_activeCrawlerIndex self) "page"
    (es self) = Ok ∅ →
  setPagesTag localhost self pages tag true
  = Ok [update_document (map (λ page, make_entry "url" page tag) pages) "url"
          (_activeCrawlerIndex self) "page"] ∧
  setPagesTag localhost self pages tag false
  = Ok [update_document [] "url" (_activeCrawlerIndex self) "page"].
Proof.
  intros Hresults. unfold setPagesTag. rewrite Hresults. cbn [bind]. split.
  - rewrite (for_each_Ok _ (λ page, make_entry "url" page tag)); [|done].
    cbn [bind app]. by rewrite filter_make_entry.
  - rewrite (for_each_Ok _ (λ _, ∅)); [|done]. cbn [bind app].
    replace (List.filter (λ e : gmap string string, negb (bool_decide (e = ∅)))
               (map (λ _, ∅) pages)) with ([] : list (gmap string string));
      [done|].
    clear Hresults. induction pages as [|page pages IH]; [done|].
    cbn [map List.filter]. rewrite bool_decide_eq_true_2 by done.
    cbn [negb]. exact IH.
Qed.

Lemma setPagesTag_no_records_witness :
  get_documents (connection ∅) ["A"; "B"; "A"] "url" ["tag"] None "page"
    (Some (connection ∅)) = Ok ∅ ∧
  setPagesTag (connection ∅) (connect init ∅) ["A"; "B"; "A"] "Relevant" true
  = Ok [update_document
          [make_entry "url" "A" "Relevant"; make_entry "url" "B" "Relevant";
           make_entry "url" "A" "Relevant"] "url" None "page"].
Proof.
  assert (get_documents (connection ∅) ["A"; "B"; "A"] "url" ["tag"] None "page"
            (Some (connection ∅)) = Ok ∅) as Hresults by reflexivity.
  split; [exact Hresults|].
  exact (proj1 (setPagesTag_no_records (connection ∅) (connect init ∅)
                  ["A"; "B"; "A"] "Relevant" Hresults)).
Defined.

(** ** [getPages] *)

Section PagesProofs.

Variable localhost : ElasticSearch.
Variable coord : Type.
Variable zero : coord.
Variable es_search :
  ElasticSearch → request → option string → string → option Z →
  list (option (page_hit coord)).
Variable getTermStatistics :
  list string → option string → string → list (list coord) * list string.
Variable explained_variance_ratio : option nat → list (list coord) → list coord.
Variable transform : option nat → list (list coord) → list (list coord).
Variable epoch : Type.
Variable strptime_epoch : string → result epoch.

(** The loop of the projection changes no url and no tags. *)
Lemma assign_coordinates_keeps (reduced : list (list coord))
    (pages : list (page coord)) :
  ∀ i pages',
    assign_coordinates coord reduced i pages = Ok pages' →
    Forall2 (λ p p', url p' = url p ∧ tags p' = tags p) pages pages'.
Proof.
  induction pages as [|p pages IH]; intros i pages'.
  - cbn. intros [= <-]. constructor.
  - cbn [assign_coordinates].
    destruct (Nat.leb (length reduced) i).
    + intros [= <-]. apply Forall2_same_length_lookup. split; [done|].
      intros j q q' Hq Hq'. rewrite Hq in Hq'. by injection Hq' as <-.
    + destruct (index reduced i) as [row|e]; [|done]. cbn [bind].
      destruct (index row 0) as [px|e]; [|done]. cbn [bind].
      destruct (index row 1) as [py|e]; [|done]. cbn [bind].
      destruct (assign_coordinates coord reduced (S i) pages)
        as [rest|e] eqn:Hrest; [|done].
      cbn [bind]. intros [= <-]. constructor; [done|]. by eapply IH.
Qed.

Lemma docs_of_hits_docs (hits : list (page_hit coord)) :
  ∀ docs,
    docs_of_hits coord zero hits = Ok docs →
    Forall2 (λ hit doc, doc_of_hit coord zero hit = Ok doc) hits docs.
Proof.
  induction hits as [|hit hits IH]; intros docs.
  - cbn. intros [= <-]. constructor.
  - cbn [docs_of_hits].
    destruct (doc_of_hit coord zero hit) as [doc|e] eqn:Hdoc; [|done].
    cbn [bind].
    destruct (docs_of_hits coord zero hits) as [rest|e]; [|done].
    cbn [bind]. intros [= <-]. constructor; [done|]. by apply IH.
Qed.

Lemma getPages_hits (self : CrawlerModel) :
  get_most_recent_documents localhost (page_hit coord) es_search
    (_pagesCap self) ["url"; "x"; "y"; "tag"; "retrieved"] (_filter self)
    (_activeCrawlerIndex self) "page" (es self)
  = fields_of_hits (page_hits localhost coord es_search self).
Proof. reflexivity. Qed.

(** X17. [getPages] asks for the most recent pages under the cap and the
    filter of the session.  When the search has no hit it returns the
    empty dictionary, without running the projection; when some hit has
    no ['fields'] it raises [KeyError]. *)
Theorem getPages_no_page (self : CrawlerModel) :
  (page_hits localhost coord es_search self = [] →
   getPages localhost coord zero es_search getTermStatistics
     explained_variance_ratio transform epoch strptime_epoch self = Ok None) ∧
  (None ∈ page_hits localhost coord es_search self →
   getPages localhost coord zero es_search getTermStatistics
     explained_variance_ratio transform epoch strptime_epoch self
   = Raise KeyError).
Proof.
  unfold getPages. rewrite getPages_hits. split.
  - by intros ->.
  - intros Hin. by rewrite (fields_of_hits_None _ Hin).
Qed.

(** X18. [getPages] raises whenever the most recent page, the first hit,
    has no ['retrieved'] field: its [doc[4]] stays the number [0], which
    [strptime] does not take. *)
Theorem getPages_first_without_retrieved (self : CrawlerModel)
    (first : page_hit coord) (rest : list (option (page_hit coord))) :
  page_hits localhost coord es_search self = Some first :: rest →
  hit_retrieved first = None →
  raises (getPages localhost coord zero es_search getTermStatistics
            explained_variance_ratio transform epoch strptime_epoch self)
  = true.
Proof.
  intros Hhits Hretrieved. unfold getPages. rewrite getPages_hits, Hhits.
  cbn [fields_of_hits].
  destruct (fields_of_hits rest) as [others|e]; [|done]. cbn [bind docs_of_hits].
  unfold doc_of_hit at 1. rewrite Hretrieved.
  destruct (first_or (hit_url first) "") as [doc0|e]; [|done]. cbn [bind].
  destruct (first_or (hit_x first) zero) as [doc1|e]; [|done]. cbn [bind].
  destruct (first_or (hit_y first) zero) as [doc2|e]; [|done]. cbn [bind].
  destruct (match hit_tag first with Some _ => _ | None => _ end)
    as [doc3|e]; [|done].
  cbn [bind].
  destruct (docs_of_hits coord zero others) as [docs|e]; [|done]. cbn [bind].
  by destruct (projectPages _ _ _ _ _ _).
Qed.

(** X19. When [getPages] returns pages, there is one per hit, in the
    order of the hits, with the url and the tags of the hit's document
    (the defaults [""] and [[]] for a field the hit has not, the tag
    string split on [;]); the epoch returned is that of the ['retrieved']
    field of the first hit. *)
Theorem getPages_pages (self : CrawlerModel)
    (answer : pages_result coord epoch) :
  getPages localhost coord zero es_search getTermStatistics
    explained_variance_ratio transform epoch strptime_epoch self
  = Ok (Some answer) →
  ∃ first hits,
    page_hits localhost coord es_search self = map Some (first :: hits) ∧
    Forall2
      (λ hit page,
         ∃ doc doc4,
           doc_of_hit coord zero hit = Ok (doc, doc4) ∧
           page.1.1.1 = url doc ∧ page.2 = tags doc)
      (first :: hits) (result_pages answer) ∧
    ∃ retrieved others,
      hit_retrieved first = Some (retrieved :: others) ∧
      strptime_epoch retrieved = Ok (last_downloaded_url_epoch answer).
Proof.
  unfold getPages. rewrite getPages_hits.
  destruct (fields_of_hits (page_hits localhost coord es_search self))
    as [hits|e] eqn:Hhits; [|done].
  apply fields_of_hits_Ok in Hhits. cbn [bind].
  destruct (docs_of_hits coord zero hits) as [docs|e] eqn:Hdocs; [|done].
  apply docs_of_hits_docs in Hdocs. cbn [bind].
  destruct docs as [|[doc doc4] docs]; [done|].
  destruct hits as [|first hits]; [by apply Forall2_nil_inv_l in Hdocs|].
  unfold projectPages, pcaProjectPages, term_tfidf, runPCASKLearn.
  destruct (getTermStatistics _ _ _) as [data corpus]. cbn [snd].
  destruct (assign_coordinates coord _ 0 _) as [projected|e] eqn:Hprojected;
    [|done].
  apply assign_coordinates_keeps in Hprojected. cbn [bind].
  destruct doc4 as [retrieved|]; [|done].
  destruct (strptime_epoch retrieved) as [seconds|e] eqn:Hseconds; [|done].
  cbn [bind]. intros [= <-]. exists first, hits. split_and!; [done| |].
  - cbn [result_pages]. apply Forall2_fmap_r.
    rewrite Forall2_fmap_l in Hprojected.
    eapply Forall2_trans; [| exact Hdocs | exact Hprojected].
    intros hit [d o] p Hhit [Hurl Htags]. exists d, o. cbn in *. by rewrite Hurl, Htags.
  - apply Forall2_cons_1 in Hdocs as [Hfirst _].
    unfold doc_of_hit in Hfirst.
    destruct (first_or (hit_url first) "") as [doc0|e]; [|done].
    destruct (first_or (hit_x first) zero) as [doc1|e]; [|done].
    destruct (first_or (hit_y first) zero) as [doc2|e]; [|done].
    cbn [bind] in Hfirst.
    destruct (match hit_tag first with Some _ => _ | None => _ end)
      as [doc3|e]; [|done].
    cbn [bind] in Hfirst.
    destruct (hit_retrieved first) as [[|r others]|]; [done| |done].
    cbn in Hfirst. injection Hfirst as _ <-. by exists r, others.
Qed.

End PagesProofs.

Lemma getPages_no_page_witness :
  let statistics (_ : list string) (_ : option string) (_ : string)
    : list (list Z) * list string := ([], []) in
  let parse (_ : string) : result Z := Ok 0%Z in
  let no_hit (_ : ElasticSearch) (_ : request) (_ : option string)
      (_ : string) (_ : option Z) : list (option (page_hit Z)) := [] in
  let bare_hit (_ : ElasticSearch) (_ : request) (_ : option string)
      (_ : string) (_ : option Z) : list (option (page_hit Z)) :=
    [Some (PageHit (Some ["http://a"]) None None None (Some ["2015"])); None] in
  getPages (connection ∅) Z 0%Z no_hit statistics (λ _ _, []) (λ _ X, X) Z
    parse init = Ok None ∧
  getPages (connection ∅) Z 0%Z bare_hit statistics (λ _ _, []) (λ _ X, X) Z
    parse init = Raise KeyError.
Proof.
  intros statistics parse no_hit bare_hit. split.
  - apply (proj1 (getPages_no_page (connection ∅) Z 0%Z no_hit statistics
                    (λ _ _, []) (λ _ X, X) Z parse init)).
    reflexivity.
  - apply (proj2 (getPages_no_page (connection ∅) Z 0%Z bare_hit statistics
                    (λ _ _, []) (λ _ X, X) Z parse init)).
    cbn. right. left.
Defined.

Lemma getPages_first_without_retrieved_witness :
  let statistics (_ : list string) (_ : option string) (_ : string)
    : list (list Z) * list string := ([], []) in
  let parse (_ : string) : result Z := Ok 0%Z in
  let first : page_hit Z := PageHit (Some ["http://a"]) None None None None in
  let hits (_ : ElasticSearch) (_ : request) (_ : option string)
      (_ : string) (_ : option Z) : list (option (page_hit Z)) :=
    [Some first] in
  hit_retrieved first = None ∧
  raises (getPages (connection ∅) Z 0%Z hits statistics (λ _ _, [])
            (λ _ X, X) Z parse init) = true.
Proof.
  intros statistics parse first hits. split; [reflexivity|].
  apply (getPages_first_without_retrieved (connection ∅) Z 0%Z hits statistics
           (λ _ _, []) (λ _ X, X) Z parse init first []); reflexivity.
Defined.

Lemma getPages_pages_witness :
  let statistics (_ : list string) (_ : option string) (_ : string)
    : list (list Z) * list string := ([[4; 5; 6]%Z], ["ebola"]) in
  let reduce (_ : option nat) (X : list (list Z)) : list (list Z) :=
    map (take 2) X in
  let parse (s : string) : result Z :=
    if String.eqb s "2015-05-22T16:00:03.000000" then Ok 1432310403%Z
    else Raise ValueError in
  let first : page_hit Z :=
    PageHit (Some ["http://a"]) (Some [1%Z]) (Some [2%Z])
      (Some ["Relevant;Ebola"]) (Some ["2015-05-22T16:00:03.000000"]) in
  let second : page_hit Z := PageHit None (Some [7%Z]) None None None in
  let hits (_ : ElasticSearch) (_ : request) (_ : option string)
      (_ : string) (_ : option Z) : list (option (page_hit Z)) :=
    [Some first; Some second] in
  let answer :=
    {| last_downloaded_url_epoch := 1432310403%Z;
       result_pages :=
         [("http://a", 4%Z, 5%Z, ["Relevant"; "Ebola"]); ("", 7%Z, 0%Z, [])] |} in
  getPages (connection ∅) Z 0%Z hits statistics (λ _ _, []) reduce Z parse init
  = Ok (Some answer) ∧
  ∃ first' hits',
    [Some first; Some second] = map Some (first' :: hits') ∧
    Forall2
      (λ hit page,
         ∃ doc doc4,
           doc_of_hit Z 0%Z hit = Ok (doc, doc4) ∧
           page.1.1.1 = url doc ∧ page.2 = tags doc)
      (first' :: hits') (result_pages answer) ∧
    ∃ retrieved others,
      hit_retrieved first' = Some (retrieved :: others) ∧
      parse retrieved = Ok 1432310403%Z.
Proof.
  intros statistics reduce parse first second hits answer.
  assert (getPages (connection ∅) Z 0%Z hits statistics (λ _ _, []) reduce Z
            parse init = Ok (Some answer)) as Hanswer
    by (vm_compute; reflexivity).
  split; [exact Hanswer|].
  exact (getPages_pages (connection ∅) Z 0%Z hits statistics (λ _ _, [])
           reduce Z parse init answer Hanswer).
Defined.

(** ** [load_config] *)

Section LoadConfigProofs.

Variable json : Type.
Variable utcnow : nat → json.

Lemma stamp_entries_entries (entries : list (gmap string (option json))) :
  ∀ calls,
    Forall2
      (λ entry updated,
         (∃ timestamp, updated !! "timestamp" = Some (Some timestamp)) ∧
         (∀ field, field ≠ "timestamp" → updated !! field = entry !! field) ∧
         (∀ timestamp,
            entry !! "timestamp" = Some (Some timestamp) → updated = entry))
      entries (stamp_entries json utcnow entries calls).
Proof.
  induction entries as [|entry entries IH]; intros calls; [constructor|].
  cbn [stamp_entries].
  destruct (entry !! "timestamp") as [[timestamp|]|] eqn:Htimestamp;
    (constructor; [|apply IH]).
  - split_and!; [by eexists | done | done].
  - split_and!; [eexists; apply lookup_insert_eq | | intros; congruence].
    intros field Hfield. by apply lookup_insert_ne.
  - split_and!; [eexists; apply lookup_insert_eq | | intros; congruence].
    intros field Hfield. by apply lookup_insert_ne.
Qed.

(** X20. [load_config] submits as many entries as the file has, in the
    order of the file, for the index and document type it is given.
    Every entry submitted has a timestamp; an entry of the file that has
    one is submitted unchanged, and one that has none, or [null], differs
    from the file's only in its timestamp. *)
Theorem load_config_stamps
    (data : gmap string (list (gmap string (option json))))
    (es_index es_doc_type : string)
    (entries : list (gmap string (option json))) :
  data !! "entries" = Some entries →
  ∃ updated_entries,
    load_config json utcnow data es_index es_doc_type
    = Ok (updated_entries, es_index, es_doc_type) ∧
    Forall2
      (λ entry updated,
         (∃ timestamp, updated !! "timestamp" = Some (Some timestamp)) ∧
         (∀ field, field ≠ "timestamp" → updated !! field = entry !! field) ∧
         (∀ timestamp,
            entry !! "timestamp" = Some (Some timestamp) → updated = entry))
      entries updated_entries.
Proof.
  intros Hentries. unfold load_config, getitem. rewrite Hentries. cbn [bind].
  eexists. split; [done|]. apply stamp_entries_entries.
Qed.

(** X21. The entries that [load_config] submits all have a timestamp, so
    loading them again changes none of them and reads no clock:
    stamping is idempotent. *)
Theorem stamp_entries_idempotent (entries : list (gmap string (option json)))
    (calls calls' : nat) :
  stamp_entries json utcnow (stamp_entries json utcnow entries calls) calls'
  = stamp_entries json utcnow entries calls.
Proof.
  revert calls calls'. induction entries as [|entry entries IH];
    intros calls calls'; [done|].
  cbn [stamp_entries].
  destruct (entry !! "timestamp") as [[timestamp|]|] eqn:Htimestamp;
    cbn [stamp_entries].
  - by rewrite Htimestamp, IH.
  - by rewrite lookup_insert_eq, IH.
  - by rewrite lookup_insert_eq, IH.
Qed.

(** X22. The entries without timestamp are stamped with successive
    readings of the clock, in the order of the file: the timestamps that
    [load_config] sets are [utcnow 0], [utcnow 1], and so on, one reading
    per entry stamped. *)
Theorem stamp_entries_readings (entries : list (gmap string (option json)))
    (calls : nat) :
  let stamped :=
    List.filter
      (λ entry : gmap string (option json),
         match entry !! "timestamp" with Some (Some _) => false | _ => true end)
      entries in
  let updated := stamp_entries json utcnow entries calls in
  ∀ i entry,
    stamped !! i = Some entry →
    <["timestamp" := Some (utcnow (calls + i))]> entry ∈ updated.
Proof.
  intros stamped updated. subst stamped updated. revert calls.
  induction entries as [|e entries IH]; intros calls i entry.
  - cbn. by rewrite lookup_nil.
  - cbn [List.filter stamp_entries].
    destruct (e !! "timestamp") as [[timestamp|]|] eqn:Htimestamp.
    + intros Hi. right. by apply IH.
    + destruct i as [|i]; cbn.
      * intros [= <-]. rewrite Nat.add_0_r. left.
      * intros Hi. right. replace (calls + S i) with (S calls + i) by lia.
        by apply IH.
    + destruct i as [|i]; cbn.
      * intros [= <-]. rewrite Nat.add_0_r. left.
      * intros Hi. right. replace (calls + S i) with (S calls + i) by lia.
        by apply IH.
Qed.

End LoadConfigProofs.

Lemma load_config_stamps_witness :
  let entries : list (gmap string (option nat)) :=
    [ {[ "index" := Some 1; "timestamp" := Some 7 ]};
      {[ "index" := Some 2; "timestamp" := None ]};
      {[ "index" := Some 3 ]} ] in
  let data : gmap string (list (gmap string (option nat))) :=
    {[ "entries" := entries ]} in
  data !! "entries" = Some entries ∧
  ∃ updated_entries,
    load_config nat (λ k, 100 + k) data "config" "domains"
    = Ok (updated_entries, "config", "domains") ∧
    Forall2
      (λ entry updated,
         (∃ timestamp, updated !! "timestamp" = Some (Some timestamp)) ∧
         (∀ field, field ≠ "timestamp" → updated !! field = entry !! field) ∧
         (∀ timestamp,
            entry !! "timestamp" = Some (Some timestamp) → updated = entry))
      entries updated_entries.
Proof.
  intros entries data.
  assert (data !! "entries" = Some entries) as Hentries by reflexivity.
  split; [exact Hentries|].
  exact (load_config_stamps nat (λ k, 100 + k) data "config" "domains"
           entries Hentries).
Defined.

(** The file of three entries, of which the first has a timestamp. *)
Example load_config_three_entries :
  let entries : list (gmap string (option nat)) :=
    [ {[ "index" := Some 1; "timestamp" := Some 7 ]};
      {[ "index" := Some 2; "timestamp" := None ]};
      {[ "index" := Some 3 ]} ] in
  load_config nat (λ k, 100 + k) {[ "entries" := entries ]} "config" "domains"
  = Ok ([ {[ "index" := Some 1; "timestamp" := Some 7 ]};
          {[ "index" := Some 2; "timestamp" := Some 100 ]};
          {[ "index" := Some 3; "timestamp" := Some 101 ]} ],
        "config", "domains").
Proof. vm_compute. reflexivity. Qed.

Lemma stamp_entries_readings_witness :
  let entries : list (gmap string (option nat)) :=
    [ {[ "index" := Some 1; "timestamp" := Some 7 ]};
      {[ "index" := Some 2; "timestamp" := None ]};
      {[ "index" := Some 3 ]} ] in
  <["timestamp" := Some 101]> ({[ "index" := Some 3 ]} : gmap string (option nat))
  ∈ stamp_entries nat (λ k, 100 + k) entries 0.
Proof.
  intros entries.
  apply (stamp_entries_readings nat (λ k, 100 + k) entries 0 1
           {[ "index" := Some 3 ]}).
  reflexivity.
Defined.

(** ** A batch of pages against the store *)

Section BatchStore.

Variable store : gmap string (gmap string string).
Variable tag : string.

Lemma first_record_store (term_field : string) (es_index : option string)
    (es_doc_type : string) (id : string) :
  first_record (connection store) term_field ["tag"] es_index es_doc_type id
  = (λ old, Ok (<["tag" := old]> ∅)) <$> stored_tag store id.
Proof.
  unfold first_record. cbn [connection search]. unfold find, stored_tag.
  destruct (store !! id) as [doc|]; [|done]. cbn [hit_fields].
  destruct (doc !! "tag") as [old|] eqn:Hold.
  - assert (filter (λ kv : string * string, kv.1 ∈ ["tag"]) doc !! "tag"
            = Some old) as Hfound.
    { apply map_lookup_filter_Some. split; [done|]. simpl. by left. }
    rewrite decide_False; last first.
    { intros Hempty. rewrite Hempty, lookup_empty in Hfound. done. }
    cbn [fill_record]. rewrite lookup_fmap, Hfound. done.
  - rewrite decide_True; [done|].
    apply map_eq. intros k. rewrite lookup_empty.
    apply map_lookup_filter_None. right. intros v Hk Hin. simpl in Hin.
    apply list_elem_of_singleton in Hin as ->. congruence.
Qed.

Lemma collect_store_returns (term_field : string) (es_index : option string)
    (es_doc_type : string) (terms : list string) :
  ∀ acc,
    ∃ results,
      collect (connection store) term_field ["tag"] es_index es_doc_type terms
        acc = Ok results.
Proof.
  induction terms as [|term terms IH]; intros acc; [by eexists|].
  pose proof (first_record_store term_field es_index es_doc_type term) as Hfirst.
  unfold first_record in Hfirst. cbn [collect].
  destruct (search _ _ _ _ term _) as [|hits rest]; [apply IH|].
  destruct (hit_fields hits) as [values|]; [|apply IH].
  destruct (fill_record ["tag"] values ∅) as [record|e]; [apply IH|].
  by destruct (stored_tag store term).
Qed.

(** The records of a batch of pages: the stored tag of each page that
    has one. *)
Lemma get_documents_store (localhost : ElasticSearch) (pages : list string)
    (term_field : string) (es_index : option string) (es_doc_type : string) :
  pages ≠ [] →
  ∃ results,
    get_documents localhost pages term_field ["tag"] es_index es_doc_type
      (Some (connection store)) = Ok results ∧
    ∀ id,
      results !! id
      = if decide (id ∈ pages)
        then (λ old, <["tag" := old]> ∅) <$> stored_tag store id
        else None.
Proof.
  intros Hpages.
  destruct (collect_store_returns term_field es_index es_doc_type pages ∅)
    as [results Hresults].
  assert (get_documents localhost pages term_field ["tag"] es_index es_doc_type
            (Some (connection store)) = Ok results) as Hdocuments.
  { unfold get_documents. by destruct pages. }
  exists results. split; [done|]. intros id.
  rewrite (get_documents_records _ _ _ _ _ _ _ _ Hdocuments id).
  destruct (decide (id ∈ pages)); [|done].
  cbn [default]. rewrite first_record_store.
  by destruct (stored_tag store id).
Qed.

Lemma pages_add_entry_store (results : gmap string (gmap string string))
    (pages : list string) :
  (∀ id,
     results !! id
     = if decide (id ∈ pages)
       then (λ old, <["tag" := old]> ∅) <$> stored_tag store id
       else None) →
  ∀ id,
    id ∈ pages →
    pages_add_entry results tag id = Ok (written_entry store tag id).
Proof.
  intros Hresults id Hid. specialize (Hresults id).
  rewrite decide_True in Hresults by done.
  unfold written_entry, written_tag.
  destruct (stored_tag store id) as [old|]; cbn in Hresults.
  - destruct (str_in tag old) eqn:Hsub.
    + eapply pages_add_entry_substring; [done | apply lookup_insert_eq | done].
    + eapply pages_add_entry_appends; [done | apply lookup_insert_eq | done].
  - by apply pages_add_entry_no_record.
Qed.

Lemma written_entry_Some (id new_tag : string) :
  written_tag store tag id = Some new_tag →
  written_entry store tag id = make_entry "url" id new_tag.
Proof. intros Hwritten. unfold written_entry. by rewrite Hwritten. Qed.

Lemma written_entry_None (id : string) :
  written_tag store tag id = None → written_entry store tag id = ∅.
Proof. intros Hwritten. unfold written_entry. by rewrite Hwritten. Qed.

Lemma written_entries_cons (page : string) (pages : list string) :
  written_entries store tag (page :: pages)
  = match written_tag store tag page with
    | Some new_tag => make_entry "url" page new_tag :: written_entries store tag pages
    | None => written_entries store tag pages
    end.
Proof.
  unfold written_entries. cbn [map List.filter].
  destruct (written_tag store tag page) as [new_tag|] eqn:Hwritten.
  - rewrite (written_entry_Some _ _ Hwritten).
    by rewrite bool_decide_eq_false_2 by apply make_entry_not_empty.
  - rewrite (written_entry_None _ Hwritten).
    by rewrite bool_decide_eq_true_2.
Qed.

Lemma upsert_entries_stored_tag (id : string) (pages : list string) :
  ∀ s,
    stored_tag (foldl (upsert "url") s (written_entries store tag pages)) id
    = match (if decide (id ∈ pages) then written_tag store tag id else None) with
      | Some new_tag => Some new_tag
      | None => stored_tag s id
      end.
Proof.
  induction pages as [|page pages IH]; intros s.
  - cbn. by rewrite decide_False by apply not_elem_of_nil.
  - rewrite written_entries_cons.
    destruct (decide (id = page)) as [<-|Hne].
    + rewrite (decide_True (P := id ∈ id :: pages)) by left.
      destruct (written_tag store tag id) as [new_tag|] eqn:Hwritten.
      * cbn [foldl]. rewrite IH, stored_tag_upsert by done.
        by destruct (decide (id ∈ pages)).
      * rewrite IH. by destruct (decide (id ∈ pages)).
    + assert ((if decide (id ∈ page :: pages) then written_tag store tag id else None)
              = (if decide (id ∈ pages) then written_tag store tag id else None)) as ->.
      { destruct (decide (id ∈ pages)) as [Hin|Hnot].
        - by rewrite decide_True by (by right).
        - rewrite decide_False; [done|]. intros [?|?]%elem_of_cons; done. }
      destruct (written_tag store tag page) as [new_tag|].
      * cbn [foldl]. rewrite IH.
        destruct (if decide (id ∈ pages) then _ else _); [done|].
        unfold stored_tag. by rewrite upsert_other.
      * by rewrite IH.
Qed.

Lemma upsert_entries_other (id : string) (pages : list string) :
  id ∉ pages →
  ∀ s, foldl (upsert "url") s (written_entries store tag pages) !! id = s !! id.
Proof.
  induction pages as [|page pages IH]; intros Hid s; [done|].
  apply not_elem_of_cons in Hid as [Hne Hid].
  rewrite written_entries_cons. destruct (written_tag store tag page) as [new_tag|].
  - cbn [foldl]. rewrite IH by done. by rewrite upsert_other.
  - by apply IH.
Qed.

End BatchStore.

(** X23. Tagging a batch of pages is idempotent on the store: after
    [tagPages] has added a tag to a batch that is not empty, the stored
    tag string of every page of the batch contains the tag, a second run
    on the same batch writes nothing, and the documents outside the batch
    are as they were. *)
Theorem tagPages_batch_twice (self : CrawlerModel)
    (store : gmap string (gmap string string)) (pages : list string)
    (tag : string) :
  pages ≠ [] →
  ∃ store1,
    tagPages self store pages tag true = Ok store1 ∧
    tagPages self store1 pages tag true = Ok store1 ∧
    (∀ id, id ∈ pages →
           ∃ stored, stored_tag store1 id = Some stored ∧
                     str_in tag stored = true) ∧
    (∀ id, id ∉ pages → store1 !! id = store !! id).
Proof.
  intros Hpages.
  assert (∀ s,
            tagPages self s pages tag true
            = Ok (foldl (upsert "url") s (written_entries s tag pages)))
    as Hrun.
  { intros s.
    destruct (get_documents_store s (connection s) pages "url"
                (_activeCrawlerIndex self) "page" Hpages)
      as (results & Hresults & Hlookup).
    pose proof (pages_add_entry_store s tag results pages Hlookup) as Hbodies.
    unfold tagPages, setPagesTag. cbn [connect es _activeCrawlerIndex].
    rewrite Hresults. cbn [bind].
    rewrite (for_each_Ok _ (written_entry s tag)) by exact Hbodies.
    done. }
  set (store1 := foldl (upsert "url") store (written_entries store tag pages)).
  assert (∀ id, id ∈ pages →
                ∃ stored, stored_tag store1 id = Some stored ∧
                          str_in tag stored = true) as Htagged.
  { intros id Hid. subst store1.
    rewrite upsert_entries_stored_tag, decide_True by done.
    unfold written_tag.
    destruct (stored_tag store id) as [old|] eqn:Hold.
    - destruct (str_in tag old) eqn:Hsub; [by exists old|].
      eexists. split; [done|]. apply str_in_app_r.
    - eexists. split; [done|]. apply str_in_refl. }
  exists store1. split_and!.
  - apply Hrun.
  - rewrite Hrun.
    replace (written_entries store1 tag pages)
      with ([] : list (gmap string string)); [done|].
    assert (∀ batch, batch ⊆ pages → [] = written_entries store1 tag batch)
      as Hnone; [|by apply Hnone].
    induction batch as [|page batch IH]; intros Hbatch; [done|].
    rewrite written_entries_cons.
    destruct (Htagged page) as (stored & Hstored & Hsub); [apply Hbatch; left|].
    unfold written_tag. rewrite Hstored, Hsub. apply IH.
    intros id Hid. apply Hbatch. by right.
  - exact Htagged.
  - intros id Hid. subst store1. by apply upsert_entries_other.
Qed.

Lemma tagPages_batch_twice_witness :
  let store : gmap string (gmap string string) :=
    {[ "B" := <["tag" := "Negative"]> {[ "url" := "B" ]} ]} in
  ["A"; "B"; "A"] ≠ [] ∧
  ∃ store1,
    tagPages init store ["A"; "B"; "A"] "Positive" true = Ok store1 ∧
    tagPages init store1 ["A"; "B"; "A"] "Positive" true = Ok store1 ∧
    (∀ id, id ∈ ["A"; "B"; "A"] →
           ∃ stored, stored_tag store1 id = Some stored ∧
                     str_in "Positive" stored = true) ∧
    (∀ id, id ∉ ["A"; "B"; "A"] → store1 !! id = store !! id).
Proof.
  intros store.
  assert (["A"; "B"; "A"] ≠ ([] : list string)) as Hpages by done.
  split; [exact Hpages|].
  exact (tagPages_batch_twice init store ["A"; "B"; "A"] "Positive" Hpages).
Defined.

(** ** More on the page summary and the projection *)

Lemma filter_length_Permutation {A : Type} (f : A → bool) (l k : list A) :
  l ≡ₚ k → length (List.filter f l) = length (List.filter f k).
Proof.
  induction 1 as [|a l k _ IH|a b l|l k m _ IH1 _ IH2]; cbn.
  - done.
  - destruct (f a); cbn; by rewrite IH.
  - by destruct (f a), (f b).
  - by rewrite IH1.
Qed.

Section SummaryProofs.

Variable timestamp : Type.
Variable argument : Type.
Variable float : argument → result timestamp.
Variable origin : timestamp.
Variable range :
  string → timestamp → timestamp → list string → bool → option string →
  option ElasticSearch → list (gmap string value).

(** A bound that [float] does not convert stops the summary with the
    exception of [float], before any search. *)
Lemma getPagesSummarySeedCrawler_float_raises (now : timestamp)
    (self : CrawlerModel) (ts1 : argument) (opt_ts2 : option argument)
    (opt_applyFilter : bool) (e : exn) :
  float ts1 = Raise e →
  getPagesSummarySeedCrawler timestamp argument float origin range now self
    (Some ts1) opt_ts2 opt_applyFilter = Raise e.
Proof. unfold getPagesSummarySeedCrawler. by intros ->. Qed.

(** X24. The three counts of [getPagesSummarySeedCrawler] add up to the
    number of documents that [range] returns for the bounds as [float]
    converts them, the lower bound being the origin of the epoch and the
    upper bound the clock when not given: every document, with or without
    tags, is counted once. *)
Theorem getPagesSummarySeedCrawler_counts_all (now : timestamp)
    (self : CrawlerModel) (opt_ts1 opt_ts2 : option argument)
    (opt_applyFilter : bool) (ts1 ts2 : timestamp) :
  match opt_ts1 with None => Ok origin | Some ts => float ts end = Ok ts1 →
  match opt_ts2 with None => Ok now | Some ts => float ts end = Ok ts2 →
  ∃ counts,
    getPagesSummarySeedCrawler timestamp argument float origin range now self
      opt_ts1 opt_ts2 opt_applyFilter = Ok counts ∧
    Relevant counts + Irrelevant counts + Neutral counts
    = length
        (range "retrieved" ts1 ts2 ["url"; "tag"] true
           (_activeCrawlerIndex self) (es self)).
Proof.
  intros Hts1 Hts2. unfold getPagesSummarySeedCrawler.
  rewrite Hts1, Hts2. cbn [bind].
  generalize (range "retrieved" ts1 ts2 ["url"; "tag"] true
                (_activeCrawlerIndex self) (es self)).
  intros results.
  replace (if opt_applyFilter then results else results) with results
    by (by destruct opt_applyFilter).
  eexists. split; [reflexivity|].
  rewrite tally_counts. cbn [Relevant Irrelevant Neutral].
  induction results as [|res results IH]; [done|].
  cbn [List.filter length]. unfold counted_neutral in *.
  destruct (counted_relevant res) eqn:Hr, (counted_irrelevant res) eqn:Hi;
    cbn [negb andb length]; try lia.
  unfold counted_relevant, counted_irrelevant in Hr, Hi.
  destruct (res !! "tag"); [|done]. by rewrite Hr in Hi.
Qed.

End SummaryProofs.

Lemma getPagesSummarySeedCrawler_counts_all_witness :
  let pages :=
    [ {| page_url := "A"; page_text := "ebola outbreak"; page_retrieved := 10;
         page_tag := Some "Relevant" |};
      {| page_url := "B"; page_text := "football scores"; page_retrieved := 20;
         page_tag := None |};
      {| page_url := "C"; page_text := "weather"; page_retrieved := 30;
         page_tag := Some "Irrelevant" |} ] in
  let float (ts : string) : result Z :=
    if String.eqb ts "15" then Ok 15%Z else Raise ValueError in
  ∃ counts,
    getPagesSummarySeedCrawler Z string float 0%Z (range_over pages) 100%Z
      init (Some "15") None false = Ok counts ∧
    Relevant counts + Irrelevant counts + Neutral counts
    = length (range_over pages "retrieved" 15%Z 100%Z ["url"; "tag"] true
                None None).
Proof.
  intros pages float.
  exact (getPagesSummarySeedCrawler_counts_all Z string float 0%Z
           (range_over pages) 100%Z init (Some "15") None false 15%Z 100%Z
           eq_refl eq_refl).
Defined.

(** X25. The counts of the summary do not depend on the order in which
    the documents are returned. *)
Theorem tally_Permutation (results results' : list (gmap string value)) :
  results ≡ₚ results' → tally results 0 0 0 = tally results' 0 0 0.
Proof.
  intros Hperm. rewrite !tally_counts.
  by rewrite !(filter_length_Permutation _ _ _ Hperm).
Qed.

Lemma tally_Permutation_witness :
  let a : gmap string value := {[ "url" := Str "A" ]} in
  let b : gmap string value := <["tag" := Str "Relevant"]> {[ "url" := Str "B" ]} in
  let c : gmap string value :=
    <["tag" := Str "Irrelevant"]> {[ "url" := Str "C" ]} in
  [a; b; c] ≡ₚ [c; a; b] ∧ tally [a; b; c] 0 0 0 = tally [c; a; b] 0 0 0.
Proof.
  intros a b c.
  assert ([a; b; c] ≡ₚ [c; a; b]) as Hperm.
  { change [c; a; b] with ([c] ++ [a; b]). change [a; b; c] with ([a; b] ++ [c]).
    apply Permutation_app_comm. }
  split; [exact Hperm|]. exact (tally_Permutation _ _ Hperm).
Defined.

Section ProjectionKeeps.

Variable coord : Type.
Variable getTermStatistics :
  list string → option string → string → list (list coord) * list string.
Variable explained_variance_ratio : option nat → list (list coord) → list coord.
Variable transform : option nat → list (list coord) → list (list coord).

Lemma assign_coordinates_fields (reduced : list (list coord))
    (pages : list (page coord)) :
  ∀ i,
    (∀ pages',
       assign_coordinates coord reduced i pages = Ok pages' →
       Forall2
         (λ p p', url p' = url p ∧ tags p' = tags p ∧ retrieved p' = retrieved p)
         pages pages') ∧
    (∀ e, assign_coordinates coord reduced i pages = Raise e → e = IndexError).
Proof.
  induction pages as [|p pages IH]; intros i.
  - split; [|done]. cbn. intros pages' [= <-]. constructor.
  - cbn [assign_coordinates]. destruct (Nat.leb (length reduced) i).
    + split; [|done]. intros pages' [= <-].
      apply Forall2_same_length_lookup. split; [done|].
      intros j q q' Hq Hq'. rewrite Hq in Hq'. by injection Hq' as <-.
    + unfold index.
      destruct (reduced !! i) as [row|]; [|split; [done | by intros e [= <-]]].
      cbn [bind].
      destruct (row !! 0) as [px|]; [|split; [done | by intros e [= <-]]].
      cbn [bind].
      destruct (row !! 1) as [py|]; [|split; [done | by intros e [= <-]]].
      cbn [bind]. destruct (IH (S i)) as [Hok Hraise].
      destruct (assign_coordinates coord reduced (S i) pages) as [rest|e'].
      * split; [|done]. cbn [bind]. intros pages' [= <-].
        constructor; [done|]. by apply Hok.
      * split; [done|]. cbn [bind]. intros e [= <-]. by apply Hraise.
Qed.

(** X26. Whatever the reduction returns, [pcaProjectPages] changes only
    coordinates: when it returns, the pages are as many as before, in the
    same order, each with its url, tags and retrieval time; and the only
    exception its loop can raise is [IndexError]. *)
Theorem pcaProjectPages_changes_coordinates_only (self : CrawlerModel)
    (pages : list (page coord)) :
  (∀ pages',
     pcaProjectPages coord getTermStatistics explained_variance_ratio
       transform self pages = Ok pages' →
     Forall2
       (λ p p', url p' = url p ∧ tags p' = tags p ∧ retrieved p' = retrieved p)
       pages pages') ∧
  (∀ e,
     pcaProjectPages coord getTermStatistics explained_variance_ratio
       transform self pages = Raise e → e = IndexError).
Proof.
  unfold pcaProjectPages, term_tfidf, runPCASKLearn.
  destruct (getTermStatistics _ _ _) as [data corpus]. cbn [snd].
  apply assign_coordinates_fields.
Qed.

End ProjectionKeeps.

Lemma pcaProjectPages_changes_coordinates_only_witness :
  let statistics (_ : list string) (_ : option string) (_ : string)
    : list (list Z) * list string := ([[4; 5; 6]%Z; [7]%Z], []) in
  let pages :=
    [ Page "http://a" 0%Z 0%Z ["Relevant"] "2015";
      Page "http://b" 1%Z 2%Z [] "2014" ] in
  pcaProjectPages Z statistics (λ _ _, []) (λ _ X, X) init pages
  = Raise IndexError ∧
  pcaProjectPages Z statistics (λ _ _, []) (λ _ X, take 1 X) init pages
  = Ok [ Page "http://a" 4%Z 5%Z ["Relevant"] "2015";
         Page "http://b" 1%Z 2%Z [] "2014" ].
Proof.
  intros statistics pages. split.
  - destruct (pcaProjectPages Z statistics (λ _ _, []) (λ _ X, X) init pages)
      as [pages'|e] eqn:Hpages; [by vm_compute in Hpages|].
    f_equal.
    exact (proj2 (pcaProjectPages_changes_coordinates_only Z statistics
                    (λ _ _, []) (λ _ X, X) init pages) e Hpages).
  - vm_compute. reflexivity.
Defined.
